(** * camellia-io: the event loop of [el.go]

    A shallow embedding of [package camellia] (file [el.go]) and the
    properties of its scheduling loop: [Run], [Tick], [Register], [Done],
    [findNearestTask], [processAction] and [setNextTriggerTime].

    Conventions of the embedding.
    - Go's [int], [uint32] and [time.Duration] values are integers of [Z]
      (a [Duration] counts nanoseconds; [int] is the 64-bit one, so that
      [int(d)] of a [Duration] is the same number).  A [time.Time] is the
      number of nanoseconds since a fixed origin.
    - [*Event] and [*PeriodTask] are locations of two stores carried by the
      state; the slices [events] and [periodTasks] hold locations, so that a
      record reached twice is one record.  Pointers are taken non-nil and
      function values that the source calls without a test are taken set.
    - A Go function value is an identifier; what the function does when it is
      called is given by the [Callbacks] of the application.  A callback may
      change anything reachable from the loop: the loop's fields, the two
      stores, the clock, the application's own data.
    - [internal.Selector] is not part of [el.go]: its three operations and the
      two interest masks are the [SelectorOps] the development is parametric
      in.  The datum of a ready key is taken to be an [EventData], which is
      what [Register] stores, so that [k.Data.(EventData)] succeeds.
    - A callback is taken to return: what it does is a function of the state.
    - Every function of the loop runs in the monad [M]: it transforms the
      state, and emits the list of the calls it made that leave the loop
      (selector operations, callbacks, clock readings). *)

From Stdlib Require Import ZArith List Bool Lia PeanoNat.
Import ListNotations.
Local Open Scope Z_scope.

(** ** Data model *)

Definition loc := nat.
Definition ProcId := nat.

(** [type Action int] and its seven constants ([iota] from 0). *)
Definition Action := Z.
Definition CONTINUE : Action := 0.
Definition SHUTDOWN_RD : Action := 1.
Definition SHUTDOWN_WR : Action := 2.
Definition SHUTDOWN_RDWR : Action := 3.
Definition TRIGGER_OPEN_EVENT : Action := 4.
Definition TRIGGER_DATA_EVENT : Action := 5.
Definition TRIGGER_CLOSE_EVENT : Action := 6.

(** The types the loop only moves around. *)
Class Types := {
  Payload : Type;   (* an [interface{}] value *)
  SelState : Type;  (* what an [*internal.Selector] points to *)
  Removed : Type;   (* first value returned by [Selector.Unregister] *)
  Error : Type;     (* a non-nil [error] *)
  App : Type        (* the application's own data *)
}.

(** [type TriggerProc func(el *EventLoop, dataPtr *interface{})]: [None] is
    the nil function. *)
Definition TriggerProc := option ProcId.

(** [type Event struct { Serving, Open, Closed, Data TriggerProc }] *)
Record Event := mkEvent {
  Serving : TriggerProc;
  Open : TriggerProc;
  Closed : TriggerProc;
  Data : TriggerProc
}.

(** [type EventData struct { e EventProc; data interface{} }] *)
Record EventData {T : Types} := mkEventData {
  e : ProcId;
  data : Payload
}.

Module PeriodTask.
(** [type PeriodTask struct { Interval; Event; nextTriggerTime }] *)
Record t := mk {
  Interval : Z;
  Event : ProcId;
  nextTriggerTime : Z
}.
End PeriodTask.

Module Key.
(** A ready key returned by [Selector.Poll]: the descriptor and the datum
    it was registered with ([k.Fd], [k.Data.(EventData)]). *)
Record t {T : Types} := mk {
  Fd : Z;
  Data : EventData
}.
End Key.

(** [type EventLoop struct] *)
Record EventLoop {T : Types} := mkEventLoop {
  Selector : SelState;
  events : list loc;
  interval : Z;
  done : bool;
  triggerDataPtr : option Payload;
  periodTasks : list loc
}.

(** The state the loop and the callbacks act on. [clock w n] is what the
    [n]-th call of [time.Now()] returns; [reads w] calls were made so far. *)
Record World {T : Types} := mkWorld {
  el : EventLoop;
  event_heap : loc -> Event;
  task_heap : loc -> PeriodTask.t;
  clock : nat -> Z;
  reads : nat;
  app : App
}.

(** ** The collaborators *)

(** [internal.Selector], by the operations [el.go] uses.  [Poll] returns
    three values of which [Tick] keeps the keys. *)
Class SelectorOps {T : Types} := {
  EV_READABLE : Z;
  EV_WRITABLE : Z;
  sel_Register : Z -> Z -> EventData -> SelState -> option Error * SelState;
  sel_Unregister : Z -> Z -> SelState -> (Removed * option Error) * SelState;
  sel_Poll : Z -> SelState -> list Key.t * SelState
}.

(** What the application's functions do when called. *)
Class Callbacks {T : Types} := {
  run_TriggerProc : ProcId -> option Payload -> World -> World;
  run_EventProc : ProcId -> Payload -> World -> Action * World
}.

(** ** Calls that leave the loop *)

Inductive Hook := HServing | HOpen | HClosed | HData.

Inductive Owner :=
| OfEvent (ev : loc) (h : Hook)
| OfTask (task : loc).

Inductive Obs {T : Types} :=
| ONow (now : Z)
| OPoll (timeout : Z)
| ORegister (fd mask : Z) (d : EventData)
| OUnregister (fd mask : Z)
| OEventProc (fd : Z) (d : EventData) (a : Action)
| OTrigger (o : Owner) (p : ProcId) (dataPtr : option Payload).

(** ** The monad of the loop *)

Definition M {T : Types} (A : Type) : Type := World -> A * World * list Obs.

Definition ret {T : Types} {A} (a : A) : M A := fun w => (a, w, []).

Definition bind {T : Types} {A B} (m : M A) (k : A -> M B) : M B :=
  fun w =>
    let '(a, w1, l1) := m w in
    let '(b, w2, l2) := k a w1 in
    (b, w2, l1 ++ l2).

Declare Scope loop_scope.
Delimit Scope loop_scope with loop.
Notation "x <- c1 ;; c2" := (bind c1 (fun x => c2))
  (at level 61, c1 at next level, right associativity) : loop_scope.
Notation "c1 ;; c2" := (bind c1 (fun _ => c2))
  (at level 61, right associativity) : loop_scope.
Local Open Scope loop_scope.

Definition gets {T : Types} {A} (f : World -> A) : M A := fun w => (f w, w, []).
Definition modify {T : Types} (f : World -> World) : M unit := fun w => (tt, f w, []).

(** [for _, x := range xs { body }]: the slice is evaluated once, before the
    first iteration. *)
Fixpoint for_each {T : Types} {A} (xs : list A) (body : A -> M unit) : M unit :=
  match xs with
  | [] => ret tt
  | x :: xs' => body x ;; for_each xs' body
  end.

Definition result {T : Types} {A} (r : A * World * list Obs) : A := fst (fst r).
Definition world {T : Types} {A} (r : A * World * list Obs) : World := snd (fst r).
Definition calls {T : Types} {A} (r : A * World * list Obs) : list Obs := snd r.

(** ** Field updates *)

Definition with_el {T : Types} (f : EventLoop -> EventLoop) (w : World) : World :=
  mkWorld T (f (el w)) (event_heap w) (task_heap w) (clock w) (reads w) (app w).

Definition set_Selector {T : Types} (s : SelState) (l : EventLoop) : EventLoop :=
  mkEventLoop T s (events l) (interval l) (done l) (triggerDataPtr l) (periodTasks l).

Definition set_events {T : Types} (evs : list loc) (l : EventLoop) : EventLoop :=
  mkEventLoop T (Selector l) evs (interval l) (done l) (triggerDataPtr l) (periodTasks l).

Definition set_done {T : Types} (b : bool) (l : EventLoop) : EventLoop :=
  mkEventLoop T (Selector l) (events l) (interval l) b (triggerDataPtr l) (periodTasks l).

Definition set_triggerDataPtr {T : Types} (p : option Payload) (l : EventLoop) : EventLoop :=
  mkEventLoop T (Selector l) (events l) (interval l) (done l) p (periodTasks l).

Definition set_periodTasks {T : Types} (ts : list loc) (l : EventLoop) : EventLoop :=
  mkEventLoop T (Selector l) (events l) (interval l) (done l) (triggerDataPtr l) ts.

Definition store {A} (h : loc -> A) (l : loc) (a : A) : loc -> A :=
  fun l' => if Nat.eqb l' l then a else h l'.

Definition set_task {T : Types} (l : loc) (a : PeriodTask.t) (w : World) : World :=
  mkWorld T (el w) (event_heap w) (store (task_heap w) l a) (clock w) (reads w) (app w).

Definition tick_clock {T : Types} (w : World) : World :=
  mkWorld T (el w) (event_heap w) (task_heap w) (clock w) (S (reads w)) (app w).

(** ** package time *)

Definition Millisecond : Z := 1000000.
Definition minDuration : Z := - 2 ^ 63.
Definition maxDuration : Z := 2 ^ 63 - 1.

(** [time.Now()] *)
Definition time_Now {T : Types} : M Z :=
  fun w => let now := clock w (reads w) in (now, tick_clock w, [ONow now]).

(** [t.Add(d)] *)
Definition time_Add (t d : Z) : Z := t + d.

(** [t.Sub(u)]: the difference, or the largest (smallest) [Duration] when the
    difference is above (below) what a [Duration] holds. *)
Definition time_Sub (t u : Z) : Z :=
  let d := t - u in
  if d <? minDuration then minDuration
  else if maxDuration <? d then maxDuration
  else d.

(** [t.Before(u)] *)
Definition time_Before (t u : Z) : bool := t <? u.

(** ** package camellia *)

Section Loop.
Context {T : Types} {Sel : SelectorOps} {C : Callbacks}.

(** [NewEventLoop], given what [internal.New(1024)] returns. *)
Definition NewEventLoop (sel : SelState) : EventLoop :=
  mkEventLoop T sel [] (100 * Millisecond) false None [].

Definition AddEvent (ev : loc) : M unit :=
  modify (with_el (fun l => set_events (events l ++ [ev]) l)).

Definition AddPeriodTask (t : loc) : M unit :=
  modify (with_el (fun l => set_periodTasks (periodTasks l ++ [t]) l)).

Definition SetTriggerDataPtr (d : Payload) : M unit :=
  modify (with_el (set_triggerDataPtr (Some d))).

(** The calls of the embedded selector's methods. *)
Definition Selector_Register (fd mask : Z) (d : EventData) : M (option Error) :=
  fun w =>
    let '(err, s) := sel_Register fd mask d (Selector (el w)) in
    (err, with_el (set_Selector s) w, [ORegister fd mask d]).

Definition Unregister (fd mask : Z) : M (Removed * option Error) :=
  fun w =>
    let '(r, s) := sel_Unregister fd mask (Selector (el w)) in
    (r, with_el (set_Selector s) w, [OUnregister fd mask]).

Definition Selector_Poll (timeout : Z) : M (list Key.t) :=
  fun w =>
    let '(keys, s) := sel_Poll timeout (Selector (el w)) in
    (keys, with_el (set_Selector s) w, [OPoll timeout]).

(** A call of a [TriggerProc] that is set, and of an [EventProc]. *)
Definition call_TriggerProc (o : Owner) (p : ProcId) (dataPtr : option Payload) : M unit :=
  fun w => (tt, run_TriggerProc p dataPtr w, [OTrigger o p dataPtr]).

Definition call_EventProc (fd : Z) (d : EventData) : M Action :=
  fun w =>
    let '(a, w') := run_EventProc (e d) (data d) w in
    (a, w', [OEventProc fd d a]).

(** [func (t *PeriodTask) setNextTriggerTime()] *)
Definition setNextTriggerTime (t : loc) : M unit :=
  now <- time_Now ;;
  modify (fun w =>
    let pt := task_heap w t in
    set_task t (PeriodTask.mk (PeriodTask.Interval pt) (PeriodTask.Event pt)
                              (time_Add now (PeriodTask.Interval pt))) w).

(** [func (el *EventLoop) findNearestTask() *PeriodTask] *)
Definition nearer (w : World) (ans : option loc) (t : loc) : option loc :=
  match ans with
  | None => Some t
  | Some a =>
      if time_Before (PeriodTask.nextTriggerTime (task_heap w t))
                     (PeriodTask.nextTriggerTime (task_heap w a))
      then Some t else ans
  end.

Definition findNearestTask (w : World) : option loc :=
  fold_left (nearer w) (periodTasks (el w)) None.

(** The field of an [Event] a hook names. *)
Definition hook (h : Hook) (ev : Event) : TriggerProc :=
  match h with
  | HServing => Serving ev
  | HOpen => Open ev
  | HClosed => Closed ev
  | HData => Data ev
  end.

(** The body of the three broadcast loops of [processAction], for the hook
    [F] each is about: [if t.F != nil { t.F(el, el.triggerDataPtr) }]. *)
Definition trigger (h : Hook) (t : loc) : M unit :=
  f <- gets (fun w => hook h (event_heap w t)) ;;
  match f with
  | Some p =>
      d <- gets (fun w => triggerDataPtr (el w)) ;;
      call_TriggerProc (OfEvent t h) p d
  | None => ret tt
  end.

(** [func (el *EventLoop) processAction(action Action, fd int)] *)
Definition processAction (action : Action) (fd : Z) : M unit :=
  (if action =? SHUTDOWN_RD then
     Unregister fd EV_READABLE ;; ret tt
   else if action =? SHUTDOWN_WR then
     Unregister fd EV_WRITABLE ;; ret tt
   else if action =? SHUTDOWN_RDWR then
     Unregister fd EV_READABLE ;;
     Unregister fd EV_WRITABLE ;; ret tt
   else if action =? TRIGGER_OPEN_EVENT then
     evs <- gets (fun w => events (el w)) ;;
     for_each evs (trigger HOpen)
   else if action =? TRIGGER_DATA_EVENT then
     evs <- gets (fun w => events (el w)) ;;
     for_each evs (trigger HData)
   else if action =? TRIGGER_CLOSE_EVENT then
     evs <- gets (fun w => events (el w)) ;;
     for_each evs (trigger HClosed)
   else ret tt) ;;
  modify (with_el (set_triggerDataPtr None)).

(** [func (el *EventLoop) Register(fd, mask, e, d) error] *)
Definition Register (fd mask : Z) (p : ProcId) (d : Payload) : M (option Error) :=
  Selector_Register fd mask (mkEventData T p d).

(** [func (el *EventLoop) Done()] *)
Definition Done : M unit := modify (with_el (set_done true)).

(** [func (el *EventLoop) Tick()].  [on_ready] is the body of its loop over
    the keys [Poll] returned. *)
Definition on_ready (k : Key.t) : M unit :=
  let ed := Key.Data k in
  action <- call_EventProc (Key.Fd k) ed ;;
  processAction action (Key.Fd k).

Definition Tick : M unit :=
  sleepTime0 <- gets (fun w => interval (el w)) ;;
  nearestTask <- gets findNearestTask ;;
  sleepTime <- match nearestTask with
               | Some t =>
                   deadline <- gets (fun w => PeriodTask.nextTriggerTime (task_heap w t)) ;;
                   now <- time_Now ;;
                   ret (time_Sub deadline now)
               | None => ret sleepTime0
               end ;;
  keys <- Selector_Poll (Z.quot sleepTime Millisecond) ;;
  for_each keys on_ready ;;
  match nearestTask with
  | Some t =>
      p <- gets (fun w => PeriodTask.Event (task_heap w t)) ;;
      call_TriggerProc (OfTask t) p None ;;
      setNextTriggerTime t
  | None => ret tt
  end.

(** The first half of [Tick], up to the end of the loop over the ready
    keys: the state it leaves is the one the task is fired in. *)
Definition Tick_ready : M unit :=
  sleepTime0 <- gets (fun w => interval (el w)) ;;
  nearestTask <- gets findNearestTask ;;
  sleepTime <- match nearestTask with
               | Some t =>
                   deadline <- gets (fun w => PeriodTask.nextTriggerTime (task_heap w t)) ;;
                   now <- time_Now ;;
                   ret (time_Sub deadline now)
               | None => ret sleepTime0
               end ;;
  keys <- Selector_Poll (Z.quot sleepTime Millisecond) ;;
  for_each keys on_ready.

(** The second half, given the task selected in the first. *)
Definition Tick_fire (nearestTask : option loc) : M unit :=
  match nearestTask with
  | Some t =>
      p <- gets (fun w => PeriodTask.Event (task_heap w t)) ;;
      call_TriggerProc (OfTask t) p None ;;
      setNextTriggerTime t
  | None => ret tt
  end.

(** [func (el *EventLoop) Run()].  [serve] is the body of its first loop,
    [if e.Serving != nil { e.Serving(el, nil) }]; [Run_serving] and
    [Run_deadlines] are its first and second loops.  The third loop,
    [for !el.done { el.Tick() }], need not end: [fuel] bounds the number of
    times its condition is evaluated, and [None] says the bound was
    reached. *)
Definition serve (ev : loc) : M unit :=
  f <- gets (fun w => Serving (event_heap w ev)) ;;
  match f with
  | Some p => call_TriggerProc (OfEvent ev HServing) p None
  | None => ret tt
  end.

Fixpoint run_loop (fuel : nat) (w : World) : option (unit * World * list Obs) :=
  match fuel with
  | O => None
  | S n =>
      if done (el w) then Some (tt, w, [])
      else
        let '(_, w1, l1) := Tick w in
        match run_loop n w1 with
        | Some (_, w2, l2) => Some (tt, w2, l1 ++ l2)
        | None => None
        end
  end.

Definition Run_serving : M unit :=
  evs <- gets (fun w => events (el w)) ;;
  for_each evs serve.

Definition Run_deadlines : M unit :=
  ts <- gets (fun w => periodTasks (el w)) ;;
  for_each ts setNextTriggerTime.

Definition Run (fuel : nat) (w : World) : option (unit * World * list Obs) :=
  let '(_, w1, l1) := (Run_serving ;; Run_deadlines) w in
  match run_loop fuel w1 with
  | Some (_, w2, l2) => Some (tt, w2, l1 ++ l2)
  | None => None
  end.

End Loop.

(** ** A small application

    A selector that keeps its registrations in a list and reports every
    registered descriptor ready, and callbacks that write to a journal.  They
    serve to run the loop on concrete states. *)

Module Sample.

Inductive errno := EEXIST | ENOENT.

Definition registration : Type := Z * Z * (ProcId * Z).

Definition T : Types :=
  {| Payload := Z;
     SelState := list registration;
     Removed := bool;
     Error := errno;
     App := list (ProcId * option Z) |}.
#[local] Existing Instance T.

Definition registered (fd : Z) (s : list registration) : bool :=
  existsb (fun r => fst (fst r) =? fd) s.

Definition register (fd mask : Z) (d : @EventData T) (s : list registration)
  : option errno * list registration :=
  if registered fd s then (Some EEXIST, s)
  else (None, s ++ [(fd, mask, (e d, data d))]).

(** Clears the bits of [mask] in the interest of [fd]; a descriptor left
    with no interest is dropped. *)
Definition unregister (fd mask : Z) (s : list registration)
  : (bool * option errno) * list registration :=
  if registered fd s then
    ((true, None),
     filter (fun r => negb (snd (fst r) =? 0))
       (map (fun r => if fst (fst r) =? fd
                      then (fd, Z.land (snd (fst r)) (Z.lnot mask), snd r)
                      else r) s))
  else ((false, Some ENOENT), s).

Definition poll (timeout : Z) (s : list registration)
  : list (@Key.t T) * list registration :=
  (map (fun r => Key.mk T (fst (fst r)) (mkEventData T (fst (snd r)) (snd (snd r)))) s, s).

Definition Sel : @SelectorOps T :=
  {| EV_READABLE := 1;
     EV_WRITABLE := 4;
     sel_Register := register;
     sel_Unregister := unregister;
     sel_Poll := poll |}.

Definition journal (p : ProcId) (d : option Z) (w : @World T) : @World T :=
  mkWorld T (el w) (event_heap w) (task_heap w) (clock w) (reads w)
          (app w ++ [(p, d)]).

(** The descriptor callback 10 calls [Done] and continues, 11 stages its
    datum and asks for the data broadcast, and any other [p] returns the
    action numbered [p]. *)
Definition event_proc (p : ProcId) (d : Z) (w : @World T) : Action * @World T :=
  if Nat.eqb p 10 then (CONTINUE, world (Done w))
  else if Nat.eqb p 11 then (TRIGGER_DATA_EVENT, world (SetTriggerDataPtr d w))
  else (Z.of_nat p, w).

Definition C : @Callbacks T :=
  {| run_TriggerProc := journal;
     run_EventProc := event_proc |}.

Definition ev_heap (l : loc) : Event :=
  match l with
  | 1%nat => mkEvent (Some 21%nat) (Some 22%nat) None (Some 23%nat)
  | 2%nat => mkEvent None None (Some 24%nat) None
  | 3%nat => mkEvent (Some 25%nat) None None (Some 26%nat)
  | _ => mkEvent None None None None
  end.

(** Task 1 every 50ms, task 2 every 20ms, task 3 on every tick. *)
Definition tk_heap (l : loc) : PeriodTask.t :=
  match l with
  | 1%nat => PeriodTask.mk (50 * Millisecond) 31%nat 0
  | 2%nat => PeriodTask.mk (20 * Millisecond) 32%nat 0
  | _ => PeriodTask.mk 0 33%nat 0
  end.

(** The clock advances by 7ms from one reading to the next. *)
Definition clk (n : nat) : Z := 1000 * Millisecond + 7 * Millisecond * Z.of_nat n.

Definition mk_world (sel : list registration) (evs ts : list loc)
    (slot : option Z) (th : loc -> PeriodTask.t) : @World T :=
  mkWorld T (mkEventLoop T sel evs (100 * Millisecond) false slot ts)
          ev_heap th clk 0 [].

Definition regs : list registration :=
  [(5, 5, (0%nat, 70)); (6, 5, (11%nat, 71)); (7, 1, (3%nat, 72))].

(** Three Events and three ready descriptors, without and with tasks. *)
Definition w_idle : @World T := mk_world regs [1; 2; 3]%nat [] (Some 9) tk_heap.
Definition w_tasks : @World T := mk_world regs [1; 2; 3]%nat [1; 2]%nat None tk_heap.

(** All three tasks, with equal next-deadlines. *)
Definition w_ties : @World T := mk_world [] [] [3; 1; 2]%nat None tk_heap.


(** Three ready descriptors and one task due at 1050ms, 50ms after the
    first reading of the clock. *)
Definition w_early : @World T :=
  mk_world regs [1; 2; 3]%nat [1]%nat None
    (fun _ => PeriodTask.mk (50 * Millisecond) 31%nat (1050 * Millisecond)).

(** One task whose next-deadline, 995ms, is 5ms behind the clock. *)
Definition w_late : @World T :=
  mk_world [] [] [1]%nat None
    (fun _ => PeriodTask.mk (50 * Millisecond) 31%nat (995 * Millisecond)).

(** One task of interval 0, due at 1010ms. *)
Definition w_zero : @World T :=
  mk_world [] [] [3]%nat None
    (fun _ => PeriodTask.mk 0 33%nat (1010 * Millisecond)).

(** Callbacks that never call [Done]: a descriptor callback only returns the
    action numbered by its identifier. *)
Definition C_plain : @Callbacks T :=
  {| run_TriggerProc := journal;
     run_EventProc := fun p d w => (Z.of_nat p, w) |}.

(** Task 2 due at 1020ms, task 1 at 1050ms, and one ready descriptor that
    asks for the shutdown of its read interest. *)
Definition w_two : @World T :=
  mk_world [(8, 5, (1%nat, 80))] [1; 2; 3]%nat [1; 2]%nat None
    (fun l => match l with
              | 1%nat => PeriodTask.mk (50 * Millisecond) 31%nat (1050 * Millisecond)
              | _ => PeriodTask.mk (20 * Millisecond) 32%nat (1020 * Millisecond)
              end).

End Sample.

(** ** Reading the calls of a run *)

(** The timeouts of the polls, the tasks fired, and the descriptor callbacks
    called, each in the order of the calls. *)
Definition poll_timeouts {T : Types} (l : list Obs) : list Z :=
  flat_map (fun o => match o with OPoll t => [t] | _ => [] end) l.

Definition fired_tasks {T : Types} (l : list Obs) : list loc :=
  flat_map (fun o => match o with OTrigger (OfTask t) _ _ => [t] | _ => [] end) l.

Definition event_procs {T : Types} (l : list Obs) : list (Z * EventData) :=
  flat_map (fun o => match o with OEventProc fd d _ => [(fd, d)] | _ => [] end) l.

Definition defined_actions : list Action :=
  [CONTINUE; SHUTDOWN_RD; SHUTDOWN_WR; SHUTDOWN_RDWR;
   TRIGGER_OPEN_EVENT; TRIGGER_DATA_EVENT; TRIGGER_CLOSE_EVENT].

(** The hook a broadcast action calls. *)
Definition broadcast_hook (action : Action) : option Hook :=
  if action =? TRIGGER_OPEN_EVENT then Some HOpen
  else if action =? TRIGGER_DATA_EVENT then Some HData
  else if action =? TRIGGER_CLOSE_EVENT then Some HClosed
  else None.

Definition deadline {T : Types} (w : World) (t : loc) : Z :=
  PeriodTask.nextTriggerTime (task_heap w t).

(** The value of [sleepTime] when [Tick] polls, and the budget the
    specification words: the least next-deadline less the present time and
    not below zero, or the default interval when no task is registered. *)
Definition sleepTime {T : Types} (w : World) : Z :=
  match findNearestTask w with
  | Some t => time_Sub (deadline w t) (clock w (reads w))
  | None => interval (el w)
  end.

Definition spec_wait_budget {T : Types} (w : World) : Z :=
  match map (deadline w) (periodTasks (el w)) with
  | [] => interval (el w)
  | d :: ds => Z.max 0 (fold_left Z.min ds d - clock w (reads w))
  end.

(** Calls made by action dispatch: unregistrations and hooks of Events. *)
Definition dispatch_call {T : Types} (o : Obs) : Prop :=
  match o with
  | OUnregister _ _ | OTrigger (OfEvent _ _) _ _ => True
  | _ => False
  end.

(** What is asked of the application's [TriggerProc]s where a statement
    speaks of the hooks and the payload at the start of a loop over the
    Events: that they leave the Event records and the pending payload slot
    as they found them. *)
Definition keeps_events {T : Types} {C : Callbacks} : Prop :=
  forall p d w ev, event_heap (run_TriggerProc p d w) ev = event_heap w ev.

Definition keeps_payload {T : Types} {C : Callbacks} : Prop :=
  forall p d w, triggerDataPtr (el (run_TriggerProc p d w)) = triggerDataPtr (el w).

(** The calls of a hook on a sequence of Events: one call for each Event
    that has the hook set, in the order of the sequence. *)
Definition hook_calls {T : Types} (h : Hook) (heap : loc -> Event)
    (d : option Payload) (evs : list loc) : list Obs :=
  flat_map (fun ev => match hook h (heap ev) with
                      | Some p => [OTrigger (OfEvent ev h) p d]
                      | None => []
                      end) evs.

(** The states in which the iterations of [for_each xs body] start. *)
Fixpoint turns {T : Types} {A} (xs : list A) (body : A -> M unit) (w : World)
  : list World :=
  match xs with
  | [] => []
  | x :: xs' => w :: turns xs' body (world (body x w))
  end.

(** The call of a hook on an Event at its turn: none if the hook is unset
    then. *)
Definition hook_call {T : Types} (h : Hook) (payload : World -> option Payload)
    (turn : loc * World) : list Obs :=
  match hook h (event_heap (snd turn) (fst turn)) with
  | Some p => [OTrigger (OfEvent (fst turn) h) p (payload (snd turn))]
  | None => []
  end.

(** [n] ticks in a row. *)
Fixpoint ticks {T : Types} {Sel : SelectorOps} {C : Callbacks} (n : nat) : M unit :=
  match n with
  | O => ret tt
  | S n' => Tick ;; ticks n'
  end.

(** ** Readings of the state

    A reading [f] is kept by the callbacks when no callback of the
    application changes it.  It is beside the loop's writes when it does not
    depend on what the loop itself writes: the selector state, the pending
    payload slot and the count of clock readings; and beside the task writes
    when it does not depend on the task store. *)
Definition callbacks_keep {T : Types} {C : Callbacks} {A} (f : World -> A) : Prop :=
  (forall p d w, f (run_TriggerProc p d w) = f w)
  /\ (forall p d w, f (snd (run_EventProc p d w)) = f w).

Definition beside_loop_writes {T : Types} {A} (f : World -> A) : Prop :=
  (forall s w, f (with_el (set_Selector s) w) = f w)
  /\ (forall p w, f (with_el (set_triggerDataPtr p) w) = f w)
  /\ (forall w, f (tick_clock w) = f w).

Definition beside_task_writes {T : Types} {A} (f : World -> A) : Prop :=
  forall t a w, f (set_task t a w) = f w.

(** What was added to the loop, and its default interval. *)
Definition registry {T : Types} (w : World) : list loc * list loc * Z :=
  (events (el w), periodTasks (el w), interval (el w)).

(** The unregistrations and the clock readings among the calls. *)
Definition unregistrations {T : Types} (l : list Obs) : list (Z * Z) :=
  flat_map (fun o => match o with OUnregister fd m => [(fd, m)] | _ => [] end) l.

Definition clock_readings {T : Types} (l : list Obs) : list Z :=
  flat_map (fun o => match o with ONow t => [t] | _ => [] end) l.

(** The unregistrations an action asks for on a descriptor, and those asked
    for by the actions the descriptor callbacks returned. *)
Definition shutdown_of {T : Types} {Sel : SelectorOps} (action : Action) (fd : Z)
  : list (Z * Z) :=
  if action =? SHUTDOWN_RD then [(fd, EV_READABLE)]
  else if action =? SHUTDOWN_WR then [(fd, EV_WRITABLE)]
  else if action =? SHUTDOWN_RDWR then [(fd, EV_READABLE); (fd, EV_WRITABLE)]
  else [].

Definition shutdowns_asked {T : Types} {Sel : SelectorOps} (l : list Obs)
  : list (Z * Z) :=
  flat_map (fun o => match o with
                     | OEventProc fd _ a => shutdown_of a fd
                     | _ => []
                     end) l.

(** ** Properties *)

Section Properties.
Context {T : Types} {Sel : SelectorOps} {C : Callbacks}.

Lemma world_bind {A B} (m : M A) (k : A -> M B) (w : World) :
  world (bind m k w) = world (k (result (m w)) (world (m w))).
Proof.
  unfold bind, world, result.
  destruct (m w) as [[a w1] l1]; cbn.
  destruct (k a w1) as [[b w2] l2]; reflexivity.
Qed.

Lemma calls_bind {A B} (m : M A) (k : A -> M B) (w : World) :
  calls (bind m k w) = calls (m w) ++ calls (k (result (m w)) (world (m w))).
Proof.
  unfold bind, world, result, calls.
  destruct (m w) as [[a w1] l1]; cbn.
  destruct (k a w1) as [[b w2] l2]; reflexivity.
Qed.

Lemma result_bind {A B} (m : M A) (k : A -> M B) (w : World) :
  result (bind m k w) = result (k (result (m w)) (world (m w))).
Proof.
  unfold bind, world, result.
  destruct (m w) as [[a w1] l1]; cbn.
  destruct (k a w1) as [[b w2] l2]; reflexivity.
Qed.


(** *** Action dispatch *)

(** C2.  For each of the seven defined actions, [continue] among them, the
    pending payload slot is empty when [processAction] returns. *)
Theorem processAction_clears_payload (action : Action) (fd : Z) (w : World) :
  In action defined_actions ->
  triggerDataPtr (el (world (processAction action fd w))) = None.
Proof.
  intros _. unfold processAction. rewrite world_bind. reflexivity.
Qed.

(** C10.  On an action that is none of the seven constants, dispatch makes
    no call at all -- no unregistration, no callback --, returns, and
    leaves the state as it was but for the pending payload slot, which is
    emptied. *)
Theorem processAction_undefined_action (action : Action) (fd : Z) (w : World) :
  action < CONTINUE \/ TRIGGER_CLOSE_EVENT < action ->
  processAction action fd w = (tt, with_el (set_triggerDataPtr None) w, []).
Proof.
  unfold CONTINUE, TRIGGER_CLOSE_EVENT. intros H.
  unfold processAction, SHUTDOWN_RD, SHUTDOWN_WR, SHUTDOWN_RDWR,
    TRIGGER_OPEN_EVENT, TRIGGER_DATA_EVENT, TRIGGER_CLOSE_EVENT.
  repeat match goal with
         | |- context [action =? ?k] =>
             replace (action =? k) with false by (symmetry; apply Z.eqb_neq; lia)
         end.
  reflexivity.
Qed.

(** C7.  Dispatching [SHUTDOWN_RDWR] for a descriptor is dispatching
    [SHUTDOWN_RD] and then [SHUTDOWN_WR] for it: the same calls in the same
    order and the same final state, that of the selector in particular. *)
Theorem shutdown_both_is_read_then_write (fd : Z) (w : World) :
  processAction SHUTDOWN_RDWR fd w
  = (processAction SHUTDOWN_RD fd ;; processAction SHUTDOWN_WR fd) w
  /\ Selector (el (world (processAction SHUTDOWN_RDWR fd w)))
     = Selector (el (world (processAction SHUTDOWN_WR fd
                              (world (processAction SHUTDOWN_RD fd w))))).
Proof.
  assert (E : processAction SHUTDOWN_RDWR fd w
              = (processAction SHUTDOWN_RD fd ;; processAction SHUTDOWN_WR fd) w).
  { unfold processAction; cbn [Z.eqb SHUTDOWN_RD SHUTDOWN_WR SHUTDOWN_RDWR Pos.eqb].
    unfold bind, Unregister, ret, modify; cbn.
    destruct (sel_Unregister fd EV_READABLE (Selector (el w))) as [r1 s1]; cbn.
    destruct (sel_Unregister fd EV_WRITABLE s1) as [r2 s2]; reflexivity. }
  split; [exact E|].
  rewrite E, world_bind. reflexivity.
Qed.

(** C9.  Whatever [Unregister] reports -- an error or none --, the
    shutdown actions return normally, keep the selector state the
    unregistration left and, for [SHUTDOWN_RDWR], still issue the second
    unregistration after the first; [Register] calls the selector once and
    returns the very error the selector reported. *)
Theorem selector_errors (fd mask : Z) (p : ProcId) (d : Payload) (w : World)
    (r1 r2 r3 : Removed * option Error) (s1 s2 s3 s4 : SelState)
    (err : option Error) :
  sel_Unregister fd EV_READABLE (Selector (el w)) = (r1, s1) ->
  sel_Unregister fd EV_WRITABLE (Selector (el w)) = (r2, s2) ->
  sel_Unregister fd EV_WRITABLE s1 = (r3, s3) ->
  sel_Register fd mask (mkEventData T p d) (Selector (el w)) = (err, s4) ->
  processAction SHUTDOWN_RD fd w
  = (tt, with_el (set_triggerDataPtr None) (with_el (set_Selector s1) w),
     [OUnregister fd EV_READABLE])
  /\ processAction SHUTDOWN_WR fd w
     = (tt, with_el (set_triggerDataPtr None) (with_el (set_Selector s2) w),
        [OUnregister fd EV_WRITABLE])
  /\ processAction SHUTDOWN_RDWR fd w
     = (tt, with_el (set_triggerDataPtr None) (with_el (set_Selector s3) w),
        [OUnregister fd EV_READABLE; OUnregister fd EV_WRITABLE])
  /\ Register fd mask p d w
     = (err, with_el (set_Selector s4) w, [ORegister fd mask (mkEventData T p d)]).
Proof.
  intros H1 H2 H3 H4.
  unfold processAction, Register, Selector_Register;
    cbn [Z.eqb SHUTDOWN_RD SHUTDOWN_WR SHUTDOWN_RDWR Pos.eqb].
  unfold bind, Unregister, ret, modify; cbn.
  rewrite H1, H2, H4; cbn. rewrite H3.
  repeat split; reflexivity.
Qed.

(** *** The nearest task *)

Lemma nth_error_snoc_inv {A} (l : list A) (x u : A) (j : nat) :
  nth_error (l ++ [x]) j = Some u ->
  (j < length l)%nat /\ nth_error l j = Some u \/ j = length l /\ u = x.
Proof.
  intros H. destruct (Nat.lt_ge_cases j (length l)) as [Hlt|Hge].
  - left. rewrite nth_error_app1 in H by assumption. auto.
  - right. rewrite nth_error_app2 in H by assumption.
    destruct (j - length l)%nat as [|k] eqn:E; cbn in H.
    + split; [lia | congruence].
    + destruct k; discriminate.
Qed.

Lemma nearest_fold (w : World) (ts : list loc) :
  ts <> [] ->
  exists i t,
    nth_error ts i = Some t
    /\ fold_left (nearer w) ts None = Some t
    /\ (forall j u, nth_error ts j = Some u -> deadline w t <= deadline w u)
    /\ (forall j u, (j < i)%nat -> nth_error ts j = Some u ->
                    deadline w t < deadline w u).
Proof.
  induction ts as [|x ts IH] using rev_ind; [congruence|]. intros _.
  rewrite fold_left_app; cbn [fold_left].
  destruct ts as [|y ts'].
  - exists 0%nat, x. cbn. repeat split.
    + intros [|[|j]] u Hu; cbn in Hu; try discriminate.
      injection Hu as <-. lia.
    + intros j u Hj; lia.
  - destruct IH as (i & t & Hi & Hfold & Hmin & Hfirst); [discriminate|].
    set (l := y :: ts') in *. rewrite Hfold. unfold nearer, time_Before.
    fold (deadline w x) (deadline w t).
    assert (Hil : (i < length l)%nat) by (apply nth_error_Some; congruence).
    destruct (Z.ltb_spec (deadline w x) (deadline w t)) as [Hlt|Hge].
    + exists (length l), x. repeat split.
      * rewrite nth_error_app2, Nat.sub_diag by lia. reflexivity.
      * intros j u Hu. apply nth_error_snoc_inv in Hu as [[_ Hu]|[_ ->]]; [|lia].
        specialize (Hmin j u Hu). lia.
      * intros j u Hj Hu. rewrite nth_error_app1 in Hu by assumption.
        specialize (Hmin j u Hu). lia.
    + exists i, t. repeat split.
      * rewrite nth_error_app1 by assumption. exact Hi.
      * intros j u Hu. apply nth_error_snoc_inv in Hu as [[_ Hu]|[_ ->]]; [|lia].
        exact (Hmin j u Hu).
      * intros j u Hj Hu. rewrite nth_error_app1 in Hu by lia.
        exact (Hfirst j u Hj Hu).
Qed.

Lemma findNearestTask_none (w : World) :
  periodTasks (el w) = [] -> findNearestTask w = None.
Proof. unfold findNearestTask. intros ->. reflexivity. Qed.

(** C5.  When tasks are registered, the task [findNearestTask] selects
    stands at a position [i] of [periodTasks], no registered task has an
    earlier next-deadline, and every task registered before position [i]
    has a strictly later one: among tasks of equal next-deadline the one
    registered first is selected. *)
Theorem findNearestTask_earliest_first_registered (w : World) :
  periodTasks (el w) <> [] ->
  exists i t,
    nth_error (periodTasks (el w)) i = Some t
    /\ findNearestTask w = Some t
    /\ (forall j u, nth_error (periodTasks (el w)) j = Some u ->
                    deadline w t <= deadline w u)
    /\ (forall j u, (j < i)%nat -> nth_error (periodTasks (el w)) j = Some u ->
                    deadline w t < deadline w u).
Proof. intros H. exact (nearest_fold w _ H). Qed.

(** *** The calls of a tick *)

Lemma dispatch_calls_silent (l : list Obs) :
  Forall dispatch_call l ->
  poll_timeouts l = [] /\ fired_tasks l = [] /\ event_procs l = [].
Proof.
  induction 1 as [|o l Ho _ (IH1 & IH2 & IH3)]; [repeat split|].
  unfold poll_timeouts, fired_tasks, event_procs in *; cbn [flat_map].
  rewrite IH1, IH2, IH3.
  destruct o as [| | | | |[ev h|t] p d]; cbn in Ho; try contradiction;
    repeat split.
Qed.

Lemma broadcast_calls (h : Hook) (evs : list loc) (w : World) :
  Forall dispatch_call (calls (for_each evs (trigger h) w)).
Proof.
  revert w; induction evs as [|ev evs IH]; intros w; cbn [for_each].
  - constructor.
  - rewrite calls_bind. apply Forall_app; split; [|apply IH].
    unfold trigger, bind, gets, call_TriggerProc, ret, calls.
    destruct (hook h (event_heap w ev)); cbn; repeat constructor.
Qed.

Lemma processAction_calls (action : Action) (fd : Z) (w : World) :
  Forall dispatch_call (calls (processAction action fd w)).
Proof.
  unfold processAction. rewrite calls_bind. apply Forall_app; split;
    [|constructor].
  repeat match goal with
         | |- context [if ?b then _ else _] => destruct b
         end;
    repeat (rewrite calls_bind; apply Forall_app; split);
    try apply broadcast_calls;
    try (unfold Unregister, calls;
         match goal with
         | |- context [sel_Unregister ?a ?b ?c] => destruct (sel_Unregister a b c)
         end; cbn; repeat constructor);
    constructor.
Qed.

Lemma on_ready_calls (k : Key.t) (w : World) :
  let l := calls (on_ready k w) in
  poll_timeouts l = [] /\ fired_tasks l = []
  /\ event_procs l = [(Key.Fd k, Key.Data k)].
Proof.
  cbv zeta. unfold on_ready. rewrite calls_bind.
  destruct (dispatch_calls_silent _
              (processAction_calls
                 (result (call_EventProc (Key.Fd k) (Key.Data k) w)) (Key.Fd k)
                 (world (call_EventProc (Key.Fd k) (Key.Data k) w))))
    as (D1 & D2 & D3).
  unfold poll_timeouts, fired_tasks, event_procs in *.
  rewrite !flat_map_app, D1, D2, D3.
  unfold call_EventProc, calls.
  destruct (run_EventProc (e (Key.Data k)) (data (Key.Data k)) w); cbn.
  repeat split.
Qed.

Lemma ready_calls (keys : list Key.t) (w : World) :
  let l := calls (for_each keys on_ready w) in
  poll_timeouts l = [] /\ fired_tasks l = []
  /\ event_procs l = map (fun k => (Key.Fd k, Key.Data k)) keys.
Proof.
  revert w; induction keys as [|k keys IH]; intros w; cbn [for_each].
  - repeat split.
  - cbv zeta. rewrite calls_bind.
    destruct (IH (world (on_ready k w))) as (IH1 & IH2 & IH3).
    destruct (on_ready_calls k w) as (K1 & K2 & K3).
    unfold poll_timeouts, fired_tasks, event_procs in *.
    rewrite !flat_map_app, IH1, IH2, IH3, K1, K2, K3.
    repeat split.
Qed.

Lemma Selector_Poll_run (timeout : Z) (w : World) :
  Selector_Poll timeout w
  = (fst (sel_Poll timeout (Selector (el w))),
     with_el (set_Selector (snd (sel_Poll timeout (Selector (el w))))) w,
     [OPoll timeout]).
Proof.
  unfold Selector_Poll. destruct (sel_Poll timeout (Selector (el w))); reflexivity.
Qed.

Lemma Tick_ready_calls (w : World) :
  let timeout := Z.quot (sleepTime w) Millisecond in
  let l := calls (Tick_ready w) in
  poll_timeouts l = [timeout] /\ fired_tasks l = []
  /\ event_procs l
     = map (fun k => (Key.Fd k, Key.Data k))
           (fst (sel_Poll timeout (Selector (el w)))).
Proof.
  cbv zeta. unfold Tick_ready, sleepTime, deadline.
  rewrite !calls_bind. cbn [gets calls result world fst snd app].
  destruct (findNearestTask w) as [t|].
  - rewrite !calls_bind, !world_bind, !result_bind.
    cbn [gets time_Now ret calls result world fst snd app].
    rewrite Selector_Poll_run. cbn [calls result world fst snd].
    match goal with
    | |- context [for_each ?keys on_ready ?w1] =>
        destruct (ready_calls keys w1) as (R1 & R2 & R3)
    end.
    unfold poll_timeouts, fired_tasks, event_procs in *.
    rewrite !flat_map_app, R1, R2, R3. repeat split.
  - cbn [ret calls result world fst snd app].
    rewrite Selector_Poll_run. cbn [calls result world fst snd].
    match goal with
    | |- context [for_each ?keys on_ready ?w1] =>
        destruct (ready_calls keys w1) as (R1 & R2 & R3)
    end.
    unfold poll_timeouts, fired_tasks, event_procs in *.
    rewrite !flat_map_app, R1, R2, R3. repeat split.
Qed.

Lemma Tick_split (w : World) :
  Tick w = (Tick_ready ;; Tick_fire (findNearestTask w)) w.
Proof.
  unfold Tick, Tick_ready, bind, gets; cbn.
  fold (Tick_fire (findNearestTask w)).
  destruct (findNearestTask w) as [t|]; cbn.
  - destruct (Selector_Poll _ (tick_clock w)) as [[keys w1] l1].
    destruct (for_each keys on_ready w1) as [[[] w2] l2].
    destruct (Tick_fire (Some t) w2) as [[[] w3] l3].
    cbn. rewrite <- !app_assoc. reflexivity.
  - destruct (Selector_Poll _ w) as [[keys w1] l1].
    destruct (for_each keys on_ready w1) as [[[] w2] l2].
    cbn. rewrite <- !app_assoc. reflexivity.
Qed.

Lemma Tick_none (w : World) :
  findNearestTask w = None -> Tick w = Tick_ready w.
Proof.
  intros H. rewrite Tick_split, H. unfold bind, Tick_fire, ret.
  destruct (Tick_ready w) as [[[] w1] l1]. rewrite app_nil_r. reflexivity.
Qed.

Lemma Tick_some (w : World) (t : loc) :
  findNearestTask w = Some t ->
  let r := Tick_ready w in
  let p := PeriodTask.Event (task_heap (world r) t) in
  let w2 := run_TriggerProc p None (world r) in
  let now := clock w2 (reads w2) in
  Tick w
  = (tt,
     set_task t (PeriodTask.mk (PeriodTask.Interval (task_heap w2 t))
                               (PeriodTask.Event (task_heap w2 t))
                               (time_Add now (PeriodTask.Interval (task_heap w2 t))))
              (tick_clock w2),
     calls r ++ [OTrigger (OfTask t) p None; ONow now]).
Proof.
  intros H. cbv zeta. rewrite Tick_split, H.
  unfold bind at 1. destruct (Tick_ready w) as [[[] w1] l1].
  reflexivity.
Qed.

Lemma nearest_is_registered (w : World) :
  periodTasks (el w) <> [] ->
  exists t, findNearestTask w = Some t
    /\ In t (periodTasks (el w))
    /\ (forall u, In u (periodTasks (el w)) -> deadline w t <= deadline w u).
Proof.
  intros H. destruct (nearest_fold w _ H) as (i & t & Hi & Hf & Hmin & _).
  exists t. repeat split; [exact Hf | exact (nth_error_In _ _ Hi) |].
  intros u Hu. apply In_nth_error in Hu as [j Hj]. exact (Hmin j u Hj).
Qed.

Lemma Tick_fired (w : World) :
  fired_tasks (calls (Tick w))
  = match findNearestTask w with Some t => [t] | None => [] end.
Proof.
  destruct (Tick_ready_calls w) as (_ & F & _).
  destruct (findNearestTask w) as [t|] eqn:E.
  - rewrite (Tick_some w t E). unfold calls at 1; cbn [snd].
    unfold fired_tasks in *. rewrite flat_map_app, F. reflexivity.
  - rewrite (Tick_none w E). exact F.
Qed.

(** C1 (amended).  [Tick] polls once.  With no task registered the timeout
    is the default interval in whole milliseconds.  With tasks registered
    it is [N.deadline - now] in whole milliseconds for a registered task
    [N] that no registered task precedes in next-deadline, [now] being
    read once at the start of the tick; the difference is cut to the range
    of a [Duration] and the division rounds toward zero, and nothing
    raises the result to zero: it agrees with [max(0, N.deadline - now)]
    as long as the deadline is not behind [now], and is negative once the
    deadline is a millisecond or more behind. *)
Theorem Tick_poll_timeout (w : World) :
  let now := clock w (reads w) in
  (periodTasks (el w) = [] ->
   poll_timeouts (calls (Tick w)) = [Z.quot (interval (el w)) Millisecond])
  /\ (periodTasks (el w) <> [] ->
      exists N,
        In N (periodTasks (el w))
        /\ (forall u, In u (periodTasks (el w)) -> deadline w N <= deadline w u)
        /\ poll_timeouts (calls (Tick w))
           = [Z.quot (time_Sub (deadline w N) now) Millisecond]
        /\ (now <= deadline w N <= now + maxDuration ->
            time_Sub (deadline w N) now = Z.max 0 (deadline w N - now))
        /\ (deadline w N + Millisecond <= now ->
            Z.quot (time_Sub (deadline w N) now) Millisecond < 0)).
Proof.
  cbv zeta. destruct (Tick_ready_calls w) as (P & _ & _). split.
  - intros H. pose proof (findNearestTask_none w H) as E.
    rewrite (Tick_none w E), P. unfold sleepTime. rewrite E. reflexivity.
  - intros H. destruct (nearest_is_registered w H) as (t & E & Hin & Hmin).
    exists t. repeat split; try assumption.
    + rewrite (Tick_some w t E). unfold calls at 1; cbn [snd].
      unfold poll_timeouts in *. rewrite flat_map_app, P.
      unfold sleepTime. rewrite E. reflexivity.
    + intros Hr. unfold time_Sub, minDuration, maxDuration in *.
      destruct (Z.ltb_spec (deadline w t - clock w (reads w)) (- 2 ^ 63)); [lia|].
      destruct (Z.ltb_spec (2 ^ 63 - 1) (deadline w t - clock w (reads w))); lia.
    + intros Hl.
      assert (Hs : time_Sub (deadline w t) (clock w (reads w)) <= - Millisecond).
      { unfold time_Sub, minDuration, maxDuration, Millisecond in *.
        destruct (Z.ltb_spec (deadline w t - clock w (reads w)) (- 2 ^ 63)); [lia|].
        destruct (Z.ltb_spec (2 ^ 63 - 1) (deadline w t - clock w (reads w))); lia. }
      apply (Z.quot_le_mono _ _ Millisecond) in Hs; [|reflexivity].
      replace (Z.quot (- Millisecond) Millisecond) with (-1) in Hs by reflexivity.
      lia.
Qed.


(** C4 (amended).  When a tick fires task [t], the clock is read right
    after the callback returns and the task's next-deadline becomes that
    reading plus the task's interval: it exceeds the reading by exactly the
    interval, and is strictly later than the reading exactly when the
    interval is positive. *)
Theorem Tick_recomputes_deadline (w : World) (t : loc) :
  In t (fired_tasks (calls (Tick w))) ->
  exists pre p now,
    calls (Tick w) = pre ++ [OTrigger (OfTask t) p None; ONow now]
    /\ deadline (world (Tick w)) t
       = now + PeriodTask.Interval (task_heap (world (Tick w)) t)
    /\ (now < deadline (world (Tick w)) t
        <-> 0 < PeriodTask.Interval (task_heap (world (Tick w)) t)).
Proof.
  rewrite Tick_fired. destruct (findNearestTask w) as [t'|] eqn:E;
    [|intros []]. intros [<-|[]].
  rewrite (Tick_some w t' E). cbv zeta.
  eexists _, _, _. split; [reflexivity|].
  unfold deadline, world, set_task, store, time_Add; cbn.
  rewrite Nat.eqb_refl; cbn. split; [reflexivity | lia].
Qed.

(** *** Broadcasts *)

Lemma hook_calls_ext (h : Hook) (heap heap' : loc -> Event)
    (d : option Payload) (evs : list loc) :
  (forall ev, heap' ev = heap ev) ->
  hook_calls h heap' d evs = hook_calls h heap d evs.
Proof.
  intros H. unfold hook_calls. apply flat_map_ext. intros ev. rewrite H.
  reflexivity.
Qed.

Lemma hook_calls_cons (h : Hook) (heap : loc -> Event) (d : option Payload)
    (ev : loc) (evs : list loc) :
  hook_calls h heap d (ev :: evs)
  = match hook h (heap ev) with
    | Some p => [OTrigger (OfEvent ev h) p d]
    | None => []
    end ++ hook_calls h heap d evs.
Proof. reflexivity. Qed.

Lemma trigger_run (h : Hook) (ev : loc) (w : World) :
  trigger h ev w
  = match hook h (event_heap w ev) with
    | Some p => (tt, run_TriggerProc p (triggerDataPtr (el w)) w,
                 [OTrigger (OfEvent ev h) p (triggerDataPtr (el w))])
    | None => (tt, w, [])
    end.
Proof.
  unfold trigger, bind, gets, call_TriggerProc, ret.
  destruct (hook h (event_heap w ev)); reflexivity.
Qed.

Lemma for_each_trigger_calls (h : Hook) (evs : list loc) (w : World) :
  keeps_events -> keeps_payload ->
  calls (for_each evs (trigger h) w)
  = hook_calls h (event_heap w) (triggerDataPtr (el w)) evs.
Proof.
  intros KE KP. revert w; induction evs as [|ev evs IH]; intros w;
    cbn [for_each]; [reflexivity|].
  rewrite calls_bind, IH, trigger_run, hook_calls_cons.
  destruct (hook h (event_heap w ev)) as [p|]; cbn [calls world fst snd];
    [|reflexivity].
  rewrite KP. f_equal. apply hook_calls_ext. intros ev'. apply KE.
Qed.

Lemma for_each_trigger_turns (h : Hook) (evs : list loc) (w : World) :
  calls (for_each evs (trigger h) w)
  = flat_map (hook_call h (fun w' => triggerDataPtr (el w')))
             (combine evs (turns evs (trigger h) w)).
Proof.
  revert w; induction evs as [|ev evs IH]; intros w;
    cbn [for_each turns combine flat_map]; [reflexivity|].
  rewrite calls_bind, IH. f_equal.
  rewrite trigger_run. unfold hook_call; cbn [fst snd].
  destruct (hook h (event_heap w ev)); reflexivity.
Qed.

Lemma processAction_broadcast (action : Action) (h : Hook) (fd : Z) (w : World) :
  broadcast_hook action = Some h ->
  calls (processAction action fd w) = calls (for_each (events (el w)) (trigger h) w).
Proof.
  intros Hh. unfold processAction, broadcast_hook in *.
  rewrite calls_bind. cbn [modify calls snd]. rewrite app_nil_r.
  destruct (action =? TRIGGER_OPEN_EVENT) eqn:E4.
  { apply Z.eqb_eq in E4; subst action. injection Hh as <-.
    cbn [Z.eqb TRIGGER_OPEN_EVENT SHUTDOWN_RD SHUTDOWN_WR SHUTDOWN_RDWR Pos.eqb].
    rewrite calls_bind. reflexivity. }
  destruct (action =? TRIGGER_DATA_EVENT) eqn:E5.
  { apply Z.eqb_eq in E5; subst action. injection Hh as <-.
    cbn [Z.eqb TRIGGER_DATA_EVENT SHUTDOWN_RD SHUTDOWN_WR SHUTDOWN_RDWR Pos.eqb].
    rewrite calls_bind. reflexivity. }
  destruct (action =? TRIGGER_CLOSE_EVENT) eqn:E6; [|discriminate].
  apply Z.eqb_eq in E6; subst action. injection Hh as <-.
  cbn [Z.eqb TRIGGER_CLOSE_EVENT SHUTDOWN_RD SHUTDOWN_WR SHUTDOWN_RDWR Pos.eqb].
  rewrite calls_bind. reflexivity.
Qed.


(** *** Run *)

Lemma serve_run (ev : loc) (w : World) :
  serve ev w
  = match Serving (event_heap w ev) with
    | Some p => (tt, run_TriggerProc p None w, [OTrigger (OfEvent ev HServing) p None])
    | None => (tt, w, [])
    end.
Proof.
  unfold serve, bind, gets, call_TriggerProc, ret.
  destruct (Serving (event_heap w ev)); reflexivity.
Qed.



Lemma setNextTriggerTime_run (t : loc) (w : World) :
  setNextTriggerTime t w
  = (tt,
     set_task t (PeriodTask.mk (PeriodTask.Interval (task_heap w t))
                               (PeriodTask.Event (task_heap w t))
                               (clock w (reads w) + PeriodTask.Interval (task_heap w t)))
              (tick_clock w),
     [ONow (clock w (reads w))]).
Proof. reflexivity. Qed.

Lemma deadlines_frame (ts : list loc) (w : World) (u : loc) :
  let w' := world (for_each ts setNextTriggerTime w) in
  PeriodTask.Interval (task_heap w' u) = PeriodTask.Interval (task_heap w u)
  /\ (~ In u ts -> task_heap w' u = task_heap w u).
Proof.
  revert w; induction ts as [|t ts IH]; intros w; cbn [for_each].
  - cbv zeta. split; reflexivity.
  - cbv zeta. rewrite world_bind, setNextTriggerTime_run. cbn [world fst snd].
    destruct (IH (set_task t (PeriodTask.mk (PeriodTask.Interval (task_heap w t))
                               (PeriodTask.Event (task_heap w t))
                               (clock w (reads w) + PeriodTask.Interval (task_heap w t)))
                           (tick_clock w))) as [I F].
    cbv zeta in I, F. split.
    + rewrite I. unfold set_task, store; cbn.
      destruct (Nat.eqb_spec u t) as [->|]; reflexivity.
    + intros N. rewrite F by (intros X; apply N; right; exact X).
      unfold set_task, store; cbn.
      destruct (Nat.eqb_spec u t) as [->|]; [|reflexivity].
      exfalso; apply N; left; reflexivity.
Qed.


Lemma world_ticks_S (n : nat) (w : World) :
  world (ticks (S n) w) = world (ticks n (world (Tick w))).
Proof. cbn [ticks]. rewrite world_bind. reflexivity. Qed.


Lemma run_loop_out_of_fuel (fuel : nat) :
  forall w : World,
    (forall j, (j < fuel)%nat -> done (el (world (ticks j w))) = false) ->
    run_loop fuel w = None.
Proof.
  induction fuel as [|fuel IH]; intros w Hrun; cbn [run_loop]; [reflexivity|].
  pose proof (Hrun 0%nat ltac:(lia)) as H0. cbn in H0. rewrite H0.
  assert (Hrun' : forall j, (j < fuel)%nat ->
             done (el (world (ticks j (world (Tick w))))) = false).
  { intros j Hj. rewrite <- world_ticks_S. apply Hrun. lia. }
  specialize (IH (world (Tick w)) Hrun').
  destruct (Tick w) as [[[] w1] l1]. cbn [world fst snd] in IH.
  rewrite IH. reflexivity.
Qed.


End Properties.

(** ** The loop on the small application *)

Section Runs.
#[local] Existing Instance Sample.T.
#[local] Existing Instance Sample.Sel.
#[local] Existing Instance Sample.C.



(** The data broadcast on a state whose slot holds 9 leaves the slot
    empty. *)
Lemma processAction_clears_payload_run :
  triggerDataPtr (el Sample.w_idle) = Some 9
  /\ triggerDataPtr (el (world (processAction TRIGGER_DATA_EVENT 6 Sample.w_idle)))
     = None.
Proof.
  split; [reflexivity|].
  apply (processAction_clears_payload TRIGGER_DATA_EVENT 6 Sample.w_idle).
  vm_compute. tauto.
Defined.

(** Action 7 on the same state. *)
Lemma processAction_undefined_action_run :
  processAction 7 6 Sample.w_idle
  = (tt, with_el (set_triggerDataPtr None) Sample.w_idle, []).
Proof.
  apply (processAction_undefined_action 7 6 Sample.w_idle).
  right. reflexivity.
Defined.

(** Descriptor 9 is not registered: both unregistrations report [ENOENT],
    and the dispatch returns all the same.  Descriptor 5 is registered:
    registering it again returns [EEXIST]. *)
Lemma selector_errors_run :
  (processAction SHUTDOWN_RDWR 9 Sample.w_idle
   = (tt, with_el (set_triggerDataPtr None) (with_el (set_Selector Sample.regs) Sample.w_idle),
      [OUnregister 9 1; OUnregister 9 4]))
  /\ Register 5 1 0%nat 70 Sample.w_idle
     = (Some Sample.EEXIST, with_el (set_Selector Sample.regs) Sample.w_idle,
        [ORegister 5 1 (mkEventData Sample.T 0%nat 70)]).
Proof.
  split.
  - refine (proj1 (proj2 (proj2
      (selector_errors 9 1 0%nat 70 Sample.w_idle
         (false, Some Sample.ENOENT) (false, Some Sample.ENOENT)
         (false, Some Sample.ENOENT)
         Sample.regs Sample.regs Sample.regs (Sample.regs ++ [(9, 1, (0%nat, 70))])
         None _ _ _ _)))); reflexivity.
  - refine (proj2 (proj2 (proj2
      (selector_errors 5 1 0%nat 70 Sample.w_idle
         (true, None) (true, None) (true, None)
         [(5, 4, (0%nat, 70)); (6, 5, (11%nat, 71)); (7, 1, (3%nat, 72))]
         [(5, 1, (0%nat, 70)); (6, 5, (11%nat, 71)); (7, 1, (3%nat, 72))]
         [(6, 5, (11%nat, 71)); (7, 1, (3%nat, 72))]
         Sample.regs (Some Sample.EEXIST) _ _ _ _)))); reflexivity.
Defined.

(** Tasks 3, 1 and 2 are registered in this order with equal
    next-deadlines. *)
Lemma findNearestTask_earliest_first_registered_run :
  findNearestTask Sample.w_ties = Some 3%nat
  /\ exists i t,
       nth_error (periodTasks (el Sample.w_ties)) i = Some t
       /\ findNearestTask Sample.w_ties = Some t
       /\ (forall j u, nth_error (periodTasks (el Sample.w_ties)) j = Some u ->
                       deadline Sample.w_ties t <= deadline Sample.w_ties u)
       /\ (forall j u, (j < i)%nat ->
                       nth_error (periodTasks (el Sample.w_ties)) j = Some u ->
                       deadline Sample.w_ties t < deadline Sample.w_ties u).
Proof.
  split; [reflexivity|].
  apply (findNearestTask_earliest_first_registered Sample.w_ties).
  discriminate.
Defined.

(** The tick of [w_tasks] fires task 1. *)
Lemma Tick_recomputes_deadline_run :
  exists pre p now,
    calls (Tick Sample.w_tasks) = pre ++ [OTrigger (OfTask 1%nat) p None; ONow now]
    /\ deadline (world (Tick Sample.w_tasks)) 1%nat
       = now + PeriodTask.Interval (task_heap (world (Tick Sample.w_tasks)) 1%nat)
    /\ (now < deadline (world (Tick Sample.w_tasks)) 1%nat
        <-> 0 < PeriodTask.Interval (task_heap (world (Tick Sample.w_tasks)) 1%nat)).
Proof.
  apply (Tick_recomputes_deadline Sample.w_tasks 1%nat).
  vm_compute. left. reflexivity.
Defined.



(** On [w_early] the poll is given the 50ms left to the deadline. *)
Lemma Tick_poll_timeout_run :
  poll_timeouts (calls (Tick Sample.w_early)) = [50].
Proof.
  destruct (proj2 (Tick_poll_timeout Sample.w_early) ltac:(discriminate))
    as (N & Hin & _ & P & _).
  rewrite P. destruct Hin as [<-|[]]. reflexivity.
Defined.


Lemma Tick_fires_before_the_deadline :
  deadline Sample.w_early 1%nat = 1050000000
  /\ calls (Tick Sample.w_early)
     = [ONow 1000000000; OPoll 50;
        OEventProc 5 (mkEventData Sample.T 0%nat 70) CONTINUE;
        OEventProc 6 (mkEventData Sample.T 11%nat 71) TRIGGER_DATA_EVENT;
        OTrigger (OfEvent 1%nat HData) 23%nat (Some 71);
        OTrigger (OfEvent 3%nat HData) 26%nat (Some 71);
        OEventProc 7 (mkEventData Sample.T 3%nat 72) SHUTDOWN_RDWR;
        OUnregister 7 1; OUnregister 7 4;
        OTrigger (OfTask 1%nat) 31%nat None; ONow 1007000000].
Proof. split; vm_compute; reflexivity. Qed.

(** C1, as stated, fails on [w_late]: the deadline is 5ms behind the clock,
    the budget of the specification is 0, and [Tick] polls with -5. *)
Lemma poll_timeout_below_zero :
  poll_timeouts (calls (Tick Sample.w_late)) = [-5]
  /\ Z.quot (spec_wait_budget Sample.w_late) Millisecond = 0
  /\ poll_timeouts (calls (Tick Sample.w_late))
     <> [Z.quot (spec_wait_budget Sample.w_late) Millisecond].
Proof. repeat split; vm_compute; congruence. Qed.

(** From [Run] on, with a clock that advances 7ms between readings, the
    fourth tick finds the nearest deadline behind the clock. *)
Lemma poll_timeouts_of_a_run :
  poll_timeouts (calls ((Run_serving ;; Run_deadlines ;; ticks 4) Sample.w_tasks))
  = [13; 13; 8; -1].
Proof. vm_compute. reflexivity. Qed.

(** C4, as stated, fails on [w_zero]: the task of interval 0 fires, the
    clock reads 1007ms, and the next-deadline is 1007ms, not later; no
    firing time is both strictly before the next-deadline and exactly the
    interval before it. *)
Lemma zero_interval_deadline_not_later :
  calls (Tick Sample.w_zero)
  = [ONow 1000000000; OPoll 10; OTrigger (OfTask 3%nat) 33%nat None; ONow 1007000000]
  /\ PeriodTask.Interval (task_heap (world (Tick Sample.w_zero)) 3%nat) = 0
  /\ deadline (world (Tick Sample.w_zero)) 3%nat = 1007000000
  /\ ~ 1007000000 < deadline (world (Tick Sample.w_zero)) 3%nat
  /\ (forall fired : Z,
        ~ (fired < deadline (world (Tick Sample.w_zero)) 3%nat
           /\ deadline (world (Tick Sample.w_zero)) 3%nat - fired
              = PeriodTask.Interval (task_heap (world (Tick Sample.w_zero)) 3%nat))).
Proof.
  assert (D : deadline (world (Tick Sample.w_zero)) 3%nat = 1007000000)
    by (vm_compute; reflexivity).
  assert (I : PeriodTask.Interval (task_heap (world (Tick Sample.w_zero)) 3%nat) = 0)
    by (vm_compute; reflexivity).
  split; [vm_compute; reflexivity|].
  split; [exact I|]. split; [exact D|]. split.
  - intros H. rewrite D in H. lia.
  - intros fired [H1 H2]. rewrite D in H1, H2. rewrite I in H2. lia.
Qed.

End Runs.


(** ** What the loop keeps *)

Section Frames.
Context {T : Types} {Sel : SelectorOps} {C : Callbacks}.

Lemma world_for_each_keeps {A B} (f : World -> B) (body : A -> M unit)
    (xs : list A) (w : World) :
  (forall x w', f (world (body x w')) = f w') ->
  f (world (for_each xs body w)) = f w.
Proof.
  intros H. revert w; induction xs as [|x xs IH]; intros w; cbn [for_each];
    [reflexivity|].
  rewrite world_bind, IH. apply H.
Qed.

Lemma trigger_keeps {A} (f : World -> A) (h : Hook) (ev : loc) (w : World) :
  callbacks_keep f -> f (world (trigger h ev w)) = f w.
Proof.
  intros [KT _]. rewrite trigger_run.
  destruct (hook h (event_heap w ev)); cbn [world fst snd]; [apply KT|reflexivity].
Qed.

Lemma serve_keeps {A} (f : World -> A) (ev : loc) (w : World) :
  callbacks_keep f -> f (world (serve ev w)) = f w.
Proof.
  intros [KT _]. rewrite serve_run.
  destruct (Serving (event_heap w ev)); cbn [world fst snd]; [apply KT|reflexivity].
Qed.

Lemma Unregister_keeps {A} (f : World -> A) (fd mask : Z) (w : World) :
  beside_loop_writes f -> f (world (Unregister fd mask w)) = f w.
Proof.
  intros (BS & _ & _). unfold Unregister.
  destruct (sel_Unregister fd mask (Selector (el w))); cbn [world fst snd].
  apply BS.
Qed.

Lemma processAction_keeps {A} (f : World -> A) (action : Action) (fd : Z)
    (w : World) :
  callbacks_keep f -> beside_loop_writes f ->
  f (world (processAction action fd w)) = f w.
Proof.
  intros K B. pose proof B as (_ & BP & _).
  unfold processAction. rewrite world_bind. cbn [modify world fst snd].
  rewrite BP.
  repeat match goal with
         | |- context [if ?b then _ else _] => destruct b
         end;
    repeat (rewrite world_bind; cbn [ret gets world result fst snd]);
    rewrite ?Unregister_keeps by assumption;
    try reflexivity;
    apply world_for_each_keeps; intros; apply trigger_keeps; assumption.
Qed.

Lemma on_ready_keeps {A} (f : World -> A) (k : Key.t) (w : World) :
  callbacks_keep f -> beside_loop_writes f ->
  f (world (on_ready k w)) = f w.
Proof.
  intros K B. unfold on_ready. rewrite world_bind.
  rewrite processAction_keeps by assumption.
  destruct K as [_ KE]. unfold call_EventProc, world.
  specialize (KE (e (Key.Data k)) (data (Key.Data k)) w).
  destruct (run_EventProc (e (Key.Data k)) (data (Key.Data k)) w); exact KE.
Qed.

Lemma Tick_ready_keeps {A} (f : World -> A) (w : World) :
  callbacks_keep f -> beside_loop_writes f ->
  f (world (Tick_ready w)) = f w.
Proof.
  intros K B. pose proof B as (BS & _ & BC).
  unfold Tick_ready.
  rewrite !world_bind. cbn [gets world result fst snd].
  rewrite world_for_each_keeps by (intros; apply on_ready_keeps; assumption).
  rewrite Selector_Poll_run. cbn [world fst snd]. rewrite BS.
  destruct (findNearestTask w); [|reflexivity].
  rewrite !world_bind. cbn [gets time_Now ret world result fst snd].
  apply BC.
Qed.

Lemma Tick_keeps {A} (f : World -> A) (w : World) :
  callbacks_keep f -> beside_loop_writes f -> beside_task_writes f ->
  f (world (Tick w)) = f w.
Proof.
  intros K B BT. destruct (findNearestTask w) as [t|] eqn:E.
  - rewrite (Tick_some w t E). cbn [world fst snd].
    pose proof B as (_ & _ & BC). pose proof K as [KT _].
    rewrite BT, BC, KT. apply Tick_ready_keeps; assumption.
  - rewrite (Tick_none w E). apply Tick_ready_keeps; assumption.
Qed.

Lemma ticks_keeps {A} (f : World -> A) (n : nat) (w : World) :
  callbacks_keep f -> beside_loop_writes f -> beside_task_writes f ->
  f (world (ticks n w)) = f w.
Proof.
  intros K B BT. revert w; induction n as [|n IH]; intros w; [reflexivity|].
  rewrite world_ticks_S, IH. apply Tick_keeps; assumption.
Qed.

Lemma Run_start_keeps {A} (f : World -> A) (w : World) :
  callbacks_keep f -> beside_loop_writes f -> beside_task_writes f ->
  f (world ((Run_serving ;; Run_deadlines) w)) = f w.
Proof.
  intros K B BT. pose proof B as (_ & _ & BC).
  rewrite world_bind. unfold Run_deadlines. rewrite world_bind.
  cbn [gets world result fst snd].
  rewrite world_for_each_keeps.
  - unfold Run_serving. rewrite world_bind. cbn [gets world result fst snd].
    apply world_for_each_keeps. intros; apply serve_keeps; assumption.
  - intros t w'. rewrite setNextTriggerTime_run. cbn [world fst snd].
    rewrite BT. apply BC.
Qed.

Lemma registry_beside_writes :
  beside_loop_writes registry /\ beside_task_writes registry.
Proof. repeat split. Qed.

Lemma done_beside_writes :
  beside_loop_writes (fun w => done (el w))
  /\ beside_task_writes (fun w => done (el w)).
Proof. repeat split. Qed.

(** X1.  The loop itself never adds or removes an Event or a task and never
    changes its default interval: when the callbacks leave the three as they
    are, so does [Tick], and so do the two loops [Run] starts with. *)
Theorem loop_keeps_registry (n : nat) (w : World) :
  callbacks_keep registry ->
  registry (world (Tick w)) = registry w
  /\ registry (world (ticks n w)) = registry w
  /\ registry (world ((Run_serving ;; Run_deadlines) w)) = registry w.
Proof.
  intros K. destruct registry_beside_writes as [B BT].
  repeat split.
  - apply Tick_keeps; assumption.
  - apply ticks_keeps; assumption.
  - apply Run_start_keeps; assumption.
Qed.

(** X2.  [Run] returns only if some callback sets the flag: when no callback
    changes [done] and the flag is unset on entry, [Run] is still ticking
    after any number of evaluations of its loop condition. *)
Theorem Run_never_returns_without_Done (fuel : nat) (w : World) :
  callbacks_keep (fun w => done (el w)) ->
  done (el w) = false ->
  Run fuel w = None.
Proof.
  intros K H. destruct done_beside_writes as [B BT].
  unfold Run.
  assert (L : run_loop fuel (world ((Run_serving ;; Run_deadlines) w)) = None).
  { apply run_loop_out_of_fuel. intros j _.
    rewrite (ticks_keeps (fun w => done (el w))) by assumption.
    rewrite (Run_start_keeps (fun w => done (el w))) by assumption.
    exact H. }
  destruct ((Run_serving ;; Run_deadlines) w) as [[[] w1] l1].
  cbn [world fst snd] in L. rewrite L. reflexivity.
Qed.

(** X3.  When the flag is already set on entry and no callback changes it,
    [Run] still calls the [Serving] hooks and sets the deadlines,
    and returns without a single tick. *)
Theorem Run_with_done_set (fuel : nat) (w : World) :
  callbacks_keep (fun w => done (el w)) ->
  done (el w) = true ->
  (0 < fuel)%nat ->
  Run fuel w = Some ((Run_serving ;; Run_deadlines) w).
Proof.
  intros K H Hf. destruct done_beside_writes as [B BT].
  pose proof (Run_start_keeps (fun w => done (el w)) w K B BT) as D.
  cbv beta in D. rewrite H in D. unfold Run.
  destruct ((Run_serving ;; Run_deadlines) w) as [[[] w1] l1].
  cbn [world fst snd] in D.
  destruct fuel as [|fuel]; [lia|]. cbn [run_loop]. rewrite D, app_nil_r.
  reflexivity.
Qed.

(** X4.  With a task registered and callbacks that leave [periodTasks] as it
    is, [n] ticks fire [n] task callbacks: each tick fires one, whatever the
    clock reads. *)
Theorem ticks_fire_one_task_each (n : nat) (w : World) :
  callbacks_keep (fun w => periodTasks (el w)) ->
  periodTasks (el w) <> [] ->
  length (fired_tasks (calls (ticks n w))) = n.
Proof.
  intros K. revert w; induction n as [|n IH]; intros w H; [reflexivity|].
  cbn [ticks]. rewrite calls_bind. unfold fired_tasks in *.
  rewrite flat_map_app, length_app.
  rewrite IH.
  - pose proof (Tick_fired w) as F. unfold fired_tasks in F. rewrite F.
    destruct (nearest_is_registered w H) as (t & E & _). rewrite E. reflexivity.
  - rewrite (Tick_keeps (fun w => periodTasks (el w))); try assumption;
      repeat split.
Qed.

Lemma processAction_slot (action : Action) (fd : Z) (w : World) :
  triggerDataPtr (el (world (processAction action fd w))) = None.
Proof. unfold processAction. rewrite world_bind. reflexivity. Qed.

Lemma ready_slot (keys : list Key.t) (w : World) :
  triggerDataPtr (el w) = None \/ keys <> [] ->
  triggerDataPtr (el (world (for_each keys on_ready w))) = None.
Proof.
  revert w; induction keys as [|k keys IH]; intros w H; cbn [for_each].
  - destruct H as [H|H]; [exact H|congruence].
  - rewrite world_bind. apply IH. left.
    unfold on_ready. rewrite world_bind. apply processAction_slot.
Qed.

Lemma Tick_ready_slot (w : World) :
  triggerDataPtr (el w) = None ->
  triggerDataPtr (el (world (Tick_ready w))) = None.
Proof.
  intros H. unfold Tick_ready.
  rewrite !world_bind. cbn [gets world result fst snd].
  apply ready_slot. left.
  rewrite Selector_Poll_run. cbn [world fst snd].
  destruct (findNearestTask w); [|exact H].
  rewrite !world_bind. cbn [gets time_Now ret world result fst snd].
  exact H.
Qed.

(** X5.  The pending payload slot is empty between ticks: when it is empty
    at the start of a tick and no [TriggerProc] stages a payload, it is empty
    at the end of the tick, whatever the descriptor callbacks staged. *)
Theorem ticks_keep_slot_empty (n : nat) (w : World) :
  keeps_payload ->
  triggerDataPtr (el w) = None ->
  triggerDataPtr (el (world (ticks n w))) = None.
Proof.
  intros KP. revert w; induction n as [|n IH]; intros w H; [exact H|].
  rewrite world_ticks_S. apply IH.
  destruct (findNearestTask w) as [t|] eqn:E.
  - rewrite (Tick_some w t E). cbn [world fst snd].
    unfold set_task, tick_clock; cbn [el]. rewrite KP.
    apply Tick_ready_slot. exact H.
  - rewrite (Tick_none w E). apply Tick_ready_slot. exact H.
Qed.

(** X6.  A tick writes one record of the task store, that of the task it
    fires, and there only the next-deadline: when the callbacks leave the
    store as it is, every other task is as before the tick, and the fired
    task keeps its interval and its callback. *)
Theorem Tick_reschedules_only_fired_task (w : World) (u : loc) :
  (forall t, callbacks_keep (fun w => task_heap w t)) ->
  (findNearestTask w <> Some u -> task_heap (world (Tick w)) u = task_heap w u)
  /\ PeriodTask.Interval (task_heap (world (Tick w)) u)
     = PeriodTask.Interval (task_heap w u)
  /\ PeriodTask.Event (task_heap (world (Tick w)) u)
     = PeriodTask.Event (task_heap w u).
Proof.
  intros K.
  assert (B : forall t, beside_loop_writes (fun w : World => task_heap w t))
    by (intros; repeat split).
  assert (R : forall t, task_heap (world (Tick_ready w)) t = task_heap w t)
    by (intros t; apply (Tick_ready_keeps (fun w => task_heap w t)); auto).
  destruct (findNearestTask w) as [t|] eqn:E.
  - rewrite (Tick_some w t E). cbn [world fst snd].
    unfold set_task, store; cbn [task_heap tick_clock].
    destruct (K u) as [KT _].
    destruct (Nat.eqb_spec u t) as [->|Hne]; cbn.
    + destruct (K t) as [KT' _]. rewrite !KT', !R.
      repeat split. intros X; congruence.
    + rewrite !KT, !R. repeat split.
  - rewrite (Tick_none w E), !R. repeat split.
Qed.

End Frames.


(** ** Registration, payload and timing *)

Section Further.
Context {T : Types} {Sel : SelectorOps} {C : Callbacks}.

Lemma deadlines_reads (ts : list loc) (w : World) :
  clock_readings (calls (for_each ts setNextTriggerTime w))
  = map (fun i => clock w (reads w + i)%nat) (seq 0 (length ts)).
Proof.
  revert w; induction ts as [|t ts IH]; intros w; cbn [for_each];
    [reflexivity|].
  rewrite calls_bind, setNextTriggerTime_run. cbn [calls world result fst snd].
  unfold clock_readings in *. rewrite flat_map_app, IH.
  cbn [length seq map flat_map app set_task tick_clock clock reads].
  rewrite Nat.add_0_r, <- seq_shift, map_map.
  change (clock w (reads w)
          :: map (fun i => clock w (S (reads w) + i)%nat) (seq 0 (length ts))
          = clock w (reads w)
          :: map (fun i => clock w (reads w + S i)%nat) (seq 0 (length ts))).
  f_equal. apply map_ext. intros i. f_equal. lia.
Qed.

Lemma deadlines_exact (ts : list loc) :
  forall (w : World) (i : nat) (t : loc),
    NoDup ts -> nth_error ts i = Some t ->
    deadline (world (for_each ts setNextTriggerTime w)) t
    = clock w (reads w + i)%nat + PeriodTask.Interval (task_heap w t).
Proof.
  induction ts as [|t0 ts IH]; intros w i t ND Hi; [destruct i; discriminate|].
  inversion ND as [|? ? Hnin ND']; subst.
  cbn [for_each]. rewrite world_bind, setNextTriggerTime_run.
  cbn [world fst snd].
  set (w1 := set_task t0 _ (tick_clock w)).
  destruct i as [|i]; cbn [nth_error] in Hi.
  - injection Hi as <-.
    destruct (deadlines_frame ts w1 t0) as [_ F]. cbv zeta in F.
    unfold deadline. rewrite (F Hnin).
    unfold w1, set_task, store; cbn. rewrite Nat.eqb_refl, Nat.add_0_r.
    reflexivity.
  - rewrite (IH w1 i t ND' Hi).
    assert (Hne : t <> t0).
    { intros ->. apply Hnin. exact (nth_error_In _ _ Hi). }
    unfold w1, set_task, store; cbn.
    destruct (Nat.eqb_spec t t0) as [|_]; [contradiction|].
    rewrite Nat.add_succ_r. reflexivity.
Qed.

(** X7.  The second loop of [Run] reads the clock once for each registered
    task, in the order of registration; when no task is registered twice,
    the next-deadline of the task at position [i] is the [i]-th of these
    readings plus the task's interval. *)
Theorem Run_deadlines_in_order (w : World) (i : nat) (t : loc) :
  NoDup (periodTasks (el w)) ->
  nth_error (periodTasks (el w)) i = Some t ->
  deadline (world (Run_deadlines w)) t
  = clock w (reads w + i)%nat + PeriodTask.Interval (task_heap w t)
  /\ clock_readings (calls (Run_deadlines w))
     = map (fun j => clock w (reads w + j)%nat)
           (seq 0 (length (periodTasks (el w)))).
Proof.
  intros ND Hi. unfold Run_deadlines.
  rewrite world_bind, calls_bind. cbn [gets calls world result fst snd app].
  split; [apply deadlines_exact; assumption | apply deadlines_reads].
Qed.

Lemma hook_call_quiet (h : Hook) (pl : World -> option Payload)
    (l : list (loc * World)) :
  unregistrations (flat_map (hook_call h pl) l) = []
  /\ shutdowns_asked (flat_map (hook_call h pl) l) = [].
Proof.
  induction l as [|x l [IH1 IH2]]; [split; reflexivity|].
  cbn [flat_map]. unfold unregistrations, shutdowns_asked in *.
  rewrite !flat_map_app, IH1, IH2. unfold hook_call.
  destruct (hook h (event_heap (snd x) (fst x))); split; reflexivity.
Qed.

Lemma processAction_unregistrations (action : Action) (fd : Z) (w : World) :
  unregistrations (calls (processAction action fd w)) = shutdown_of action fd
  /\ shutdowns_asked (calls (processAction action fd w)) = [].
Proof.
  unfold processAction, shutdown_of. rewrite calls_bind.
  cbn [modify calls snd]. rewrite app_nil_r.
  repeat match goal with
         | |- context [if ?b then _ else _] => destruct b
         end;
    rewrite ?calls_bind; cbn [gets ret calls result world fst snd app];
    rewrite ?for_each_trigger_turns;
    try apply hook_call_quiet;
    try (split; reflexivity);
    unfold Unregister, calls;
    repeat match goal with
           | |- context [sel_Unregister ?a ?b ?c] =>
               destruct (sel_Unregister a b c)
           end; cbn; split; reflexivity.
Qed.

Lemma ready_unregistrations (keys : list Key.t) (w : World) :
  unregistrations (calls (for_each keys on_ready w))
  = shutdowns_asked (calls (for_each keys on_ready w)).
Proof.
  revert w; induction keys as [|k keys IH]; intros w; cbn [for_each];
    [reflexivity|].
  rewrite calls_bind. unfold unregistrations, shutdowns_asked in *.
  rewrite !flat_map_app, IH. f_equal.
  unfold on_ready. rewrite calls_bind, !flat_map_app.
  destruct (processAction_unregistrations
              (result (call_EventProc (Key.Fd k) (Key.Data k) w)) (Key.Fd k)
              (world (call_EventProc (Key.Fd k) (Key.Data k) w))) as [U A].
  unfold unregistrations, shutdowns_asked in U, A. rewrite U, A.
  unfold call_EventProc, calls, result.
  destruct (run_EventProc (e (Key.Data k)) (data (Key.Data k)) w); cbn.
  rewrite !app_nil_r. reflexivity.
Qed.

Lemma Tick_ready_shape (w : World) :
  exists pre keys w1,
    calls (Tick_ready w) = pre ++ calls (for_each keys on_ready w1)
    /\ unregistrations pre = [] /\ shutdowns_asked pre = [].
Proof.
  unfold Tick_ready.
  rewrite !calls_bind. cbn [gets calls result world fst snd app].
  rewrite Selector_Poll_run. cbn [calls result world fst snd].
  destruct (findNearestTask w) as [t|].
  - rewrite !calls_bind. cbn [gets time_Now ret calls result world fst snd app].
    eexists [ONow _; OPoll _], _, _. repeat split.
  - cbn [ret calls result world fst snd app].
    eexists [OPoll _], _, _. repeat split.
Qed.

(** X8.  The unregistrations of a tick are those the descriptor callbacks
    asked for, and no other: in the order of the callbacks, the read interest
    of the callback's descriptor for [SHUTDOWN_RD], the write interest for
    [SHUTDOWN_WR], the two for [SHUTDOWN_RDWR], none for any other action. *)
Theorem Tick_unregisters_what_was_asked (w : World) :
  unregistrations (calls (Tick w)) = shutdowns_asked (calls (Tick w)).
Proof.
  assert (R : unregistrations (calls (Tick_ready w))
              = shutdowns_asked (calls (Tick_ready w))).
  { destruct (Tick_ready_shape w) as (pre & keys & w1 & -> & U & A).
    pose proof (ready_unregistrations keys w1) as RU.
    unfold unregistrations, shutdowns_asked in *.
    rewrite !flat_map_app, U, A, RU. reflexivity. }
  destruct (findNearestTask w) as [t|] eqn:E.
  - rewrite (Tick_some w t E). cbn [calls snd].
    unfold unregistrations, shutdowns_asked in *.
    rewrite !flat_map_app, R. reflexivity.
  - rewrite (Tick_none w E). exact R.
Qed.

(** X9.  When the nearest deadline is not behind the clock, the timeout of
    the poll is the time left to it rounded down to a whole millisecond: the
    poll is never asked to wait past the deadline, and falls short of it by
    less than a millisecond. *)
Theorem Tick_waits_up_to_the_deadline (w : World) (N : loc) :
  findNearestTask w = Some N ->
  0 <= deadline w N - clock w (reads w) <= maxDuration ->
  exists timeout,
    poll_timeouts (calls (Tick w)) = [timeout]
    /\ 0 <= timeout
    /\ timeout * Millisecond <= deadline w N - clock w (reads w)
       < (timeout + 1) * Millisecond.
Proof.
  intros E Hl. destruct (Tick_ready_calls w) as (P & _ & _).
  exists (Z.quot (sleepTime w) Millisecond). split.
  - rewrite (Tick_some w N E). cbn [calls snd].
    unfold poll_timeouts in *. rewrite flat_map_app, P. reflexivity.
  - unfold sleepTime. rewrite E. unfold time_Sub.
    set (d := deadline w N - clock w (reads w)) in *.
    unfold minDuration, maxDuration in *.
    destruct (Z.ltb_spec d (- 2 ^ 63)); [lia|].
    destruct (Z.ltb_spec (2 ^ 63 - 1) d); [lia|].
    rewrite Z.quot_div_nonneg by (unfold Millisecond; lia).
    unfold Millisecond.
    pose proof (Z.div_mod d 1000000 ltac:(lia)).
    pose proof (Z.mod_pos_bound d 1000000 ltac:(lia)).
    pose proof (Z.div_pos d 1000000 ltac:(lia) ltac:(lia)).
    lia.
Qed.

(** X10.  [findNearestTask] returns nil exactly when no task is registered,
    and a task it returns is a registered one. *)
Theorem findNearestTask_registered (w : World) :
  (findNearestTask w = None <-> periodTasks (el w) = [])
  /\ (forall t, findNearestTask w = Some t -> In t (periodTasks (el w))).
Proof.
  split; [split|].
  - intros H. destruct (periodTasks (el w)) as [|x l] eqn:E; [reflexivity|].
    destruct (nearest_is_registered w) as (t & Ht & _); [rewrite E|]; congruence.
  - apply findNearestTask_none.
  - intros t Ht. destruct (periodTasks (el w)) as [|x l] eqn:E.
    + rewrite (findNearestTask_none w E) in Ht. discriminate.
    + destruct (nearest_is_registered w) as (t' & Ht' & Hin & _);
        [rewrite E; discriminate|].
      rewrite E in Hin. congruence.
Qed.

(** X11.  Adding a task changes the selection only in its favour, and only
    if it is strictly earlier: after [AddPeriodTask t] the nearest task is
    [t] when no task was registered or when [t]'s next-deadline is strictly
    before that of the task selected so far, which is selected still
    otherwise. *)
Theorem AddPeriodTask_selection (t : loc) (w : World) :
  findNearestTask (world (AddPeriodTask t w))
  = match findNearestTask w with
    | None => Some t
    | Some a => if deadline w t <? deadline w a then Some t else Some a
    end.
Proof.
  unfold findNearestTask, AddPeriodTask, modify, world; cbn.
  change (nearer (with_el _ w)) with (nearer w).
  rewrite fold_left_app. cbn [fold_left].
  destruct (fold_left (nearer w) (periodTasks (el w)) None); reflexivity.
Qed.

(** X12.  An Event added with [AddEvent] is called last: with
    [TriggerProc]s that leave the Event records and the payload slot as they
    are, a broadcast after [AddEvent ev] makes the calls it would have made
    before, followed by the call of [ev]'s hook if it is set. *)
Theorem AddEvent_is_called_last (action : Action) (h : Hook) (fd : Z)
    (ev : loc) (w : World) :
  keeps_events -> keeps_payload ->
  broadcast_hook action = Some h ->
  calls (processAction action fd (world (AddEvent ev w)))
  = calls (processAction action fd w)
    ++ hook_calls h (event_heap w) (triggerDataPtr (el w)) [ev].
Proof.
  intros KE KP Hh.
  rewrite !(processAction_broadcast action h) by assumption.
  rewrite !for_each_trigger_calls by assumption.
  unfold AddEvent, modify, world, hook_calls; cbn.
  rewrite flat_map_app. reflexivity.
Qed.

(** X13.  The payload a descriptor callback stages with [SetTriggerDataPtr]
    before it returns a broadcast action is the argument of every hook of
    that broadcast, and is gone afterwards ([TriggerProc]s as in X12). *)
Theorem staged_payload_reaches_hooks (action : Action) (h : Hook) (fd : Z)
    (d : Payload) (w : World) :
  keeps_events -> keeps_payload ->
  broadcast_hook action = Some h ->
  let r := (SetTriggerDataPtr d ;; processAction action fd) w in
  calls r = hook_calls h (event_heap w) (Some d) (events (el w))
  /\ triggerDataPtr (el (world r)) = None.
Proof.
  intros KE KP Hh. cbv zeta. rewrite calls_bind, world_bind.
  cbn [SetTriggerDataPtr modify calls result world fst snd app].
  split; [|apply processAction_slot].
  rewrite (processAction_broadcast action h) by assumption.
  rewrite for_each_trigger_calls by assumption. reflexivity.
Qed.

(** X14.  A payload lives for one dispatch: whatever action is dispatched
    after the staging, a broadcast dispatched next passes nil to the hooks
    ([TriggerProc]s as in X12). *)
Theorem staged_payload_is_dropped (a b : Action) (h : Hook) (fd fd' : Z)
    (d : Payload) (w : World) :
  keeps_events -> keeps_payload ->
  broadcast_hook b = Some h ->
  let w1 := world ((SetTriggerDataPtr d ;; processAction a fd) w) in
  calls (processAction b fd' w1) = hook_calls h (event_heap w1) None (events (el w1)).
Proof.
  intros KE KP Hh. cbv zeta.
  rewrite (processAction_broadcast b h) by assumption.
  rewrite for_each_trigger_calls by assumption.
  rewrite world_bind, processAction_slot. reflexivity.
Qed.



Lemma ready_clock_readings (keys : list Key.t) (w : World) :
  clock_readings (calls (for_each keys on_ready w)) = [].
Proof.
  revert w; induction keys as [|k keys IH]; intros w; cbn [for_each];
    [reflexivity|].
  rewrite calls_bind. unfold clock_readings in *. rewrite flat_map_app, IH.
  rewrite app_nil_r. unfold on_ready. rewrite calls_bind, flat_map_app.
  match goal with
  | |- _ ++ flat_map _ (calls (processAction ?a ?fd ?w')) = _ =>
      pose proof (processAction_calls a fd w') as D
  end.
  match goal with
  | |- _ ++ ?x = _ => assert (Q : x = [])
  end.
  { induction D as [|o l Ho _ IHD]; [reflexivity|].
    cbn [flat_map]. rewrite IHD.
    destruct o as [| | | | |[ev h|t] p d]; cbn in Ho; try contradiction;
      reflexivity. }
  rewrite Q, app_nil_r. unfold call_EventProc, calls.
  destruct (run_EventProc (e (Key.Data k)) (data (Key.Data k)) w); reflexivity.
Qed.

(** X16.  A loop as [NewEventLoop] makes it, with nothing added, ticks on
    the default interval: the poll is given 100, the clock is not read, and
    no task fires. *)
Theorem fresh_loop_tick (sel : SelState) (w : World) :
  el w = NewEventLoop sel ->
  poll_timeouts (calls (Tick w)) = [100]
  /\ clock_readings (calls (Tick w)) = []
  /\ fired_tasks (calls (Tick w)) = [].
Proof.
  intros H.
  assert (E : findNearestTask w = None).
  { apply findNearestTask_none. rewrite H. reflexivity. }
  assert (S : sleepTime w = 100 * Millisecond).
  { unfold sleepTime. rewrite E, H. reflexivity. }
  destruct (Tick_ready_calls w) as (P & _ & _). cbv zeta in P.
  rewrite S in P. change (Z.quot (100 * Millisecond) Millisecond) with 100 in P.
  repeat split.
  - rewrite (Tick_none w E). exact P.
  - rewrite (Tick_none w E). unfold Tick_ready.
    rewrite !calls_bind. cbn [gets calls result world fst snd app].
    rewrite E. cbn [ret calls result world fst snd app].
    rewrite Selector_Poll_run. cbn [calls result world fst snd].
    unfold clock_readings. cbn [flat_map app].
    apply ready_clock_readings.
  - rewrite Tick_fired, E. reflexivity.
Qed.

End Further.

(** ** More runs of the small application *)

Section MoreRuns.
#[local] Existing Instance Sample.T.
#[local] Existing Instance Sample.Sel.
#[local] Existing Instance Sample.C.

Lemma sample_callbacks_keep {A} (f : World -> A) :
  (forall a w, f (mkWorld Sample.T (el w) (event_heap w) (task_heap w)
                          (clock w) (reads w) a) = f w) ->
  (forall w, f (with_el (set_done true) w) = f w) ->
  (forall p w, f (with_el (set_triggerDataPtr p) w) = f w) ->
  callbacks_keep f.
Proof.
  intros HA HD HP. split.
  - intros p d w. apply HA.
  - intros p d w. cbn. unfold Sample.event_proc.
    destruct (Nat.eqb p 10); [apply HD|].
    destruct (Nat.eqb p 11); [apply HP|reflexivity].
Qed.

Lemma plain_callbacks_keep_done :
  callbacks_keep (C := Sample.C_plain) (fun w => done (el w)).
Proof. split; intros; reflexivity. Qed.

(** Two ticks of [w_tasks], whose callbacks stage a payload and shut a
    descriptor down, leave the three Events, the two tasks and the interval
    of 100ms. *)
Lemma loop_keeps_registry_run :
  registry (world (ticks 2 Sample.w_tasks))
  = ([1; 2; 3]%nat, [1; 2]%nat, 100 * Millisecond).
Proof.
  refine (proj1 (proj2 (loop_keeps_registry 2 Sample.w_tasks _))).
  apply sample_callbacks_keep; reflexivity.
Defined.

Lemma Run_never_returns_without_Done_run :
  Run (C := Sample.C_plain) 5 Sample.w_tasks = None.
Proof.
  apply (Run_never_returns_without_Done (C := Sample.C_plain) 5 Sample.w_tasks).
  - exact plain_callbacks_keep_done.
  - reflexivity.
Defined.

Lemma Run_with_done_set_run :
  Run (C := Sample.C_plain) 1 (with_el (set_done true) Sample.w_tasks)
  = Some ((Run_serving ;; Run_deadlines) (with_el (set_done true) Sample.w_tasks)).
Proof.
  apply (Run_with_done_set (C := Sample.C_plain) 1).
  - exact plain_callbacks_keep_done.
  - reflexivity.
  - lia.
Defined.

Lemma ticks_fire_one_task_each_run :
  length (fired_tasks (calls (ticks 3 Sample.w_tasks))) = 3%nat.
Proof.
  apply (ticks_fire_one_task_each 3 Sample.w_tasks).
  - apply sample_callbacks_keep; reflexivity.
  - discriminate.
Defined.

(** In each tick of [w_tasks] the callback of descriptor 6 stages 71. *)
Lemma ticks_keep_slot_empty_run :
  triggerDataPtr (el (world (ticks 2 Sample.w_tasks))) = None.
Proof.
  apply (ticks_keep_slot_empty 2 Sample.w_tasks).
  - intros p d w. reflexivity.
  - reflexivity.
Defined.

(** The tick of [w_two] fires task 2: task 1 is as it was. *)
Lemma Tick_reschedules_only_fired_task_run :
  findNearestTask Sample.w_two = Some 2%nat
  /\ task_heap (world (Tick Sample.w_two)) 1%nat = task_heap Sample.w_two 1%nat.
Proof.
  split; [reflexivity|].
  refine (proj1 (Tick_reschedules_only_fired_task Sample.w_two 1%nat _) _).
  - intros t. apply (sample_callbacks_keep (fun w => task_heap w t)); reflexivity.
  - vm_compute. discriminate.
Defined.

(** Task 2 stands second in [w_tasks]: it gets the second reading, 1007ms,
    plus its 20ms. *)
Lemma Run_deadlines_in_order_run :
  deadline (world (Run_deadlines Sample.w_tasks)) 2%nat = 1027 * Millisecond.
Proof.
  refine (proj1 (Run_deadlines_in_order Sample.w_tasks 1 2%nat _ _)).
  - repeat constructor; cbn; intuition discriminate.
  - reflexivity.
Defined.

(** On [w_early] 50ms are left. *)
Lemma Tick_waits_up_to_the_deadline_run :
  exists timeout,
    poll_timeouts (calls (Tick Sample.w_early)) = [timeout]
    /\ 0 <= timeout
    /\ timeout * Millisecond
       <= deadline Sample.w_early 1%nat - clock Sample.w_early (reads Sample.w_early)
       < (timeout + 1) * Millisecond.
Proof.
  apply (Tick_waits_up_to_the_deadline Sample.w_early 1%nat).
  - reflexivity.
  - vm_compute. split; discriminate.
Defined.

(** Event 2, the only one with [Closed] set, is added a second time. *)
Lemma AddEvent_is_called_last_run :
  calls (processAction TRIGGER_CLOSE_EVENT 6 (world (AddEvent 2%nat Sample.w_idle)))
  = calls (processAction TRIGGER_CLOSE_EVENT 6 Sample.w_idle)
    ++ [OTrigger (OfEvent 2%nat HClosed) 24%nat (Some 9)].
Proof.
  apply (AddEvent_is_called_last TRIGGER_CLOSE_EVENT HClosed 6 2%nat Sample.w_idle).
  - intros p d w ev. reflexivity.
  - intros p d w. reflexivity.
  - reflexivity.
Defined.

Lemma staged_payload_reaches_hooks_run :
  calls ((SetTriggerDataPtr 42 ;; processAction TRIGGER_DATA_EVENT 6) Sample.w_idle)
  = [OTrigger (OfEvent 1%nat HData) 23%nat (Some 42);
     OTrigger (OfEvent 3%nat HData) 26%nat (Some 42)].
Proof.
  refine (proj1 (staged_payload_reaches_hooks TRIGGER_DATA_EVENT HData 6 42
                   Sample.w_idle _ _ _)).
  - intros p d w ev. reflexivity.
  - intros p d w. reflexivity.
  - reflexivity.
Defined.

Lemma staged_payload_is_dropped_run :
  calls (processAction TRIGGER_DATA_EVENT 6
           (world ((SetTriggerDataPtr 42 ;; processAction CONTINUE 5) Sample.w_idle)))
  = [OTrigger (OfEvent 1%nat HData) 23%nat None;
     OTrigger (OfEvent 3%nat HData) 26%nat None].
Proof.
  refine (staged_payload_is_dropped CONTINUE TRIGGER_DATA_EVENT HData 5 6 42
            Sample.w_idle _ _ _).
  - intros p d w ev. reflexivity.
  - intros p d w. reflexivity.
  - reflexivity.
Defined.


Lemma fresh_loop_tick_run :
  poll_timeouts
    (calls (Tick (mkWorld Sample.T (NewEventLoop Sample.regs) Sample.ev_heap
                          Sample.tk_heap Sample.clk 0 [])))
  = [100].
Proof.
  refine (proj1 (fresh_loop_tick Sample.regs _ _)). reflexivity.
Defined.

End MoreRuns.
